(** * SaisieEcritures: the double-entry grid of the transaction entry page

    A shallow embedding of [frontend/src/pages/SaisieEcritures.tsx]: the flat
    sequence of entry lines, the totals effect, auto-balance, the keyboard
    controller, account lookup, description propagation and the grouping of
    lines into payloads at submission.

    JavaScript numbers are IEEE 754 binary64 values; they are modelled by
    Rocq's primitive floats, which are the same format with the same
    round-to-nearest-even arithmetic. *)

From Stdlib Require Import List String Ascii ZArith Bool Lia Floats DecimalString.
Import ListNotations.

Set Warnings "-inexact-float".

Local Open Scope string_scope.

(** ** The parts of the JavaScript runtime the page relies on *)

Module JS.

(** Truthiness of a string: only the empty string is falsy. *)
Definition truthy (s : string) : bool :=
  match s with EmptyString => false | String _ _ => true end.

(** [a || b] on strings. *)
Definition or_else (a b : string) : string := if truthy a then a else b.

(** [code.startsWith(value)]: a code-unit-wise, case-sensitive prefix test. *)
Definition startsWith (code value : string) : bool := String.prefix value code.

(** Truthiness of a number used as an identifier: [0] is falsy. *)
Definition truthy_id (z : Z) : bool := negb (z =? 0)%Z.

(** *** Decimal text to binary64 *)

Definition digit_of (c : ascii) : option Z :=
  let n := nat_of_ascii c in
  if (48 <=? n)%nat && (n <=? 57)%nat then Some (Z.of_nat (n - 48)) else None.

(** A [string] holds the UTF-8 bytes of the text.  The white space and
    line terminators that fit in one byte: TAB, LF, VT, FF, CR and SP. *)
Definition is_space (c : ascii) : bool :=
  let n := nat_of_ascii c in
  (n =? 9)%nat || (n =? 10)%nat || (n =? 11)%nat || (n =? 12)%nat
  || (n =? 13)%nat || (n =? 32)%nat.

(** U+00A0, in its two bytes. *)
Definition is_space2 (c1 c2 : ascii) : bool :=
  (nat_of_ascii c1 =? 194)%nat && (nat_of_ascii c2 =? 160)%nat.

(** The white space and line terminators of three bytes: U+1680, U+2000 to
    U+200A, U+2028, U+2029, U+202F, U+205F, U+3000 and U+FEFF. *)
Definition is_space3 (c1 c2 c3 : ascii) : bool :=
  let a := nat_of_ascii c1 in
  let b := nat_of_ascii c2 in
  let c := nat_of_ascii c3 in
  ((a =? 225)%nat && (b =? 154)%nat && (c =? 128)%nat)
  || ((a =? 226)%nat && (b =? 128)%nat
      && (((128 <=? c)%nat && (c <=? 138)%nat)
          || (c =? 168)%nat || (c =? 169)%nat || (c =? 175)%nat))
  || ((a =? 226)%nat && (b =? 129)%nat && (c =? 159)%nat)
  || ((a =? 227)%nat && (b =? 128)%nat && (c =? 128)%nat)
  || ((a =? 239)%nat && (b =? 187)%nat && (c =? 191)%nat).

Fixpoint trimStart (s : string) : string :=
  match s with
  | String c r =>
      if is_space c then trimStart r
      else
        match r with
        | String c2 r2 =>
            if is_space2 c c2 then trimStart r2
            else
              match r2 with
              | String c3 r3 => if is_space3 c c2 c3 then trimStart r3 else s
              | EmptyString => s
              end
        | EmptyString => s
        end
  | EmptyString => s
  end.

(** Reads the longest run of decimal digits at the head of [s]: the
    accumulated value, the number of digits read and the rest. *)
Fixpoint digits (s : string) (acc : Z) (n : Z) : Z * Z * string :=
  match s with
  | String c r =>
      match digit_of c with
      | Some d => digits r (10 * acc + d)%Z (n + 1)%Z
      | None => (acc, n, s)
      end
  | EmptyString => (acc, n, s)
  end.

(** The binary64 value nearest to [m * 10 ^ e] (ties to even), for [0 <= m]. *)
Definition round_decimal (neg : bool) (m e : Z) : float :=
  match m with
  | Z0 => if neg then neg_zero else zero
  | Zneg _ => nan
  | Zpos p =>
      if (0 <=? e)%Z then
        if (1100 <? Z.log2 m + 3 * e)%Z then (if neg then neg_infinity else infinity)
        else
          SF2Prim (binary_normalize prec emax
                     (if neg then (- (m * 10 ^ e))%Z else (m * 10 ^ e)%Z) 0 false)
      else
        if (Z.log2 m + 1 + 3 * e <? -1080)%Z then (if neg then neg_zero else zero)
        else
          let '(q, eq, l) := SFdiv_core_binary prec emax m 0 (10 ^ (- e))%Z 0 in
          SF2Prim (binary_round_aux prec emax neg q eq l)
  end.

(** The optional exponent part [e[+-]digits]; an indicator that is not
    followed by digits is not part of the literal. *)
Definition exponent_part (s : string) : Z :=
  match s with
  | String c r =>
      if (nat_of_ascii c =? 101)%nat || (nat_of_ascii c =? 69)%nat then
        let '(sg, r') :=
          match r with
          | String "+" t => (1%Z, t)
          | String "-" t => ((-1)%Z, t)
          | _ => (1%Z, r)
          end in
        let '(v, n, _) := digits r' 0%Z 0%Z in
        if (n =? 0)%Z then 0%Z else (sg * v)%Z
      else 0%Z
  | EmptyString => 0%Z
  end.

(** An unsigned decimal literal at the head of [s], or [Infinity]. *)
Definition unsigned_literal (neg : bool) (s : string) : float :=
  if String.prefix "Infinity" s then (if neg then neg_infinity else infinity)
  else
    let '(ip, ni, r) := digits s 0%Z 0%Z in
    match r with
    | String "." r1 =>
        let '(m, nf, r2) := digits r1 ip 0%Z in
        if (ni =? 0)%Z && (nf =? 0)%Z then nan
        else round_decimal neg m (exponent_part r2 - nf)
    | _ =>
        if (ni =? 0)%Z then nan else round_decimal neg ip (exponent_part r)
    end.

(** [parseFloat(s)]: leading white space is skipped, the longest prefix
    that is a decimal literal is converted, and [NaN] is returned when
    there is none. *)
Definition parseFloat (s : string) : float :=
  match trimStart s with
  | String "+" r => unsigned_literal false r
  | String "-" r => unsigned_literal true r
  | t => unsigned_literal false t
  end.

(** [parseInt(s)] without a radix: an optional sign, then hexadecimal
    digits after a [0x] prefix or decimal digits otherwise; [NaN] when no
    digit can be read. *)
Definition hex_digit_of (c : ascii) : option Z :=
  let n := nat_of_ascii c in
  if (48 <=? n)%nat && (n <=? 57)%nat then Some (Z.of_nat (n - 48))
  else if (97 <=? n)%nat && (n <=? 102)%nat then Some (Z.of_nat (n - 87))
  else if (65 <=? n)%nat && (n <=? 70)%nat then Some (Z.of_nat (n - 55))
  else None.

Fixpoint hex_digits (s : string) (acc : Z) (n : Z) : Z * Z :=
  match s with
  | String c r =>
      match hex_digit_of c with
      | Some d => hex_digits r (16 * acc + d)%Z (n + 1)%Z
      | None => (acc, n)
      end
  | EmptyString => (acc, n)
  end.

Definition parseInt_unsigned (neg : bool) (s : string) : float :=
  let '(v, n) :=
    match s with
    | String "0" (String "x" r) | String "0" (String "X" r) => hex_digits r 0%Z 0%Z
    | _ => let '(v, n, _) := digits s 0%Z 0%Z in (v, n)
    end in
  if (n =? 0)%Z then nan else round_decimal neg v 0.

Definition parseInt (s : string) : float :=
  match trimStart s with
  | String "+" r => parseInt_unsigned false r
  | String "-" r => parseInt_unsigned true r
  | t => parseInt_unsigned false t
  end.

(** *** binary64 to decimal text *)

Definition string_of_Z (z : Z) : string :=
  DecimalString.NilZero.string_of_uint (N.to_uint (Z.to_N z)).

Definition string_length_Z (s : string) : Z := Z.of_nat (String.length s).

Fixpoint zeros (n : nat) : string :=
  match n with O => "" | S k => String "0" (zeros k) end.

(** Candidates [(s, n)] with [k] digits around the integer [X]. *)
Definition shortest_candidates (X nd k : Z) : list (Z * Z) :=
  let lo := (X / 10 ^ (nd - k))%Z in
  let hi := (lo + 1)%Z in
  (lo, nd) :: (if (hi =? 10 ^ k)%Z then (10 ^ (k - 1), nd + 1)%Z else (hi, nd)) :: nil.

Definition candidate_ok (x : float) (k : Z) (c : Z * Z) : bool :=
  let '(s, n) := c in
  (10 ^ (k - 1) <=? s)%Z && PrimFloat.eqb (round_decimal false s (n - k)) x.

Definition closer (X k : Z) (c1 c2 : Z * Z) : Z * Z :=
  let d c := Z.abs (fst c * 10 ^ (snd c - k) - X) in
  match (d c1 ?= d c2)%Z with
  | Lt => c1
  | Gt => c2
  | Eq => if Z.even (fst c1) then c1 else c2
  end.

Fixpoint shortest (x : float) (X nd : Z) (k : Z) (fuel : nat) : Z * Z * Z :=
  match fuel with
  | O => (X, nd, nd)
  | S fuel' =>
      match List.filter (candidate_ok x k) (shortest_candidates X nd k) with
      | c :: nil => (fst c, snd c, k)
      | c1 :: c2 :: _ => let c := closer X k c1 c2 in (fst c, snd c, k)
      | nil => shortest x X nd (k + 1) fuel'
      end
  end.

(** [String(x)] for a finite [x >= 1e21], whose value is the integer [X]:
    the shortest digit string that reads back as [x], in exponent
    notation. *)
Definition toString_large (x : float) (X : Z) : string :=
  let nd := string_length_Z (string_of_Z X) in
  let '(s, n, k) := shortest x X nd 1 17 in
  let ds := string_of_Z s in
  let ex := string_of_Z (n - 1) in
  match ds with
  | String d EmptyString => String d ("e+" ++ ex)
  | String d r => String d ("." ++ r ++ "e+" ++ ex)
  | EmptyString => ""
  end.

(** [x.toFixed(f)]. *)
Definition toFixed (x : float) (f : nat) : string :=
  match Prim2SF x with
  | S754_nan => "NaN"
  | S754_infinity false => "Infinity"
  | S754_infinity true => "-Infinity"
  | S754_zero _ => if (f =? 0)%nat then "0" else "0." ++ zeros f
  | S754_finite sg m e =>
      let s := if sg then "-" else "" in
      let F := Z.of_nat f in
      let X := (Zpos m * 2 ^ e)%Z in
      if (0 <=? e)%Z && (10 ^ 21 <=? X)%Z then s ++ toString_large (abs x) X
      else
        let n :=
          if (0 <=? e)%Z then (X * 10 ^ F)%Z
          else ((2 * Zpos m * 10 ^ F + 2 ^ (- e)) / 2 ^ (1 - e))%Z in
        let ds := string_of_Z n in
        let k := String.length ds in
        let ds' := if (k <=? f)%nat then zeros (f + 1 - k) ++ ds else ds in
        let k' := String.length ds' in
        if (f =? 0)%nat then s ++ ds'
        else s ++ substring 0 (k' - f) ds' ++ "." ++ substring (k' - f) f ds'
  end.

(** [Math.abs] and the comparisons on numbers; every comparison with
    [NaN] is false. *)
Definition Math_abs (x : float) : float := abs x.
Definition lt (x y : float) : bool := PrimFloat.ltb x y.
Definition gt (x y : float) : bool := PrimFloat.ltb y x.
Definition ge (x y : float) : bool := PrimFloat.leb y x.

End JS.

Local Open Scope list_scope.

(** ** Data model *)

(** [interface Compte]. *)
Module Compte.
Record t := mk { id : Z; code : string; libelle : string; type : string }.
End Compte.

(** [interface LigneEcriture]; a property marked [?] in the interface is
    an [option], [None] standing for [undefined]. *)
Record LigneEcriture := mkLigne {
  id : option Z;
  tempId : string;
  date : option string;
  compte : string;
  compteId : option Z;
  tiers : string;
  libelle : string;
  debit : string;
  credit : string;
  piece : option string;
  isNew : option bool;
  isHeader : option bool
}.

(** [ligne.isHeader] in a condition. *)
Definition is_header (l : LigneEcriture) : bool :=
  match isHeader l with Some b => b | None => false end.


(** [ligne.piece || '']. *)
Definition piece_or_empty (l : LigneEcriture) : string :=
  match piece l with Some p => JS.or_else p "" | None => "" end.

(** Assignments to one property of a line. *)
Definition set_date (v : option string) (l : LigneEcriture) : LigneEcriture :=
  mkLigne (id l) (tempId l) v (compte l) (compteId l) (tiers l) (libelle l)
          (debit l) (credit l) (piece l) (isNew l) (isHeader l).
Definition set_compte (v : string) (l : LigneEcriture) : LigneEcriture :=
  mkLigne (id l) (tempId l) (date l) v (compteId l) (tiers l) (libelle l)
          (debit l) (credit l) (piece l) (isNew l) (isHeader l).
Definition set_compteId (v : option Z) (l : LigneEcriture) : LigneEcriture :=
  mkLigne (id l) (tempId l) (date l) (compte l) v (tiers l) (libelle l)
          (debit l) (credit l) (piece l) (isNew l) (isHeader l).
Definition set_tiers (v : string) (l : LigneEcriture) : LigneEcriture :=
  mkLigne (id l) (tempId l) (date l) (compte l) (compteId l) v (libelle l)
          (debit l) (credit l) (piece l) (isNew l) (isHeader l).
Definition set_libelle (v : string) (l : LigneEcriture) : LigneEcriture :=
  mkLigne (id l) (tempId l) (date l) (compte l) (compteId l) (tiers l) v
          (debit l) (credit l) (piece l) (isNew l) (isHeader l).
Definition set_debit (v : string) (l : LigneEcriture) : LigneEcriture :=
  mkLigne (id l) (tempId l) (date l) (compte l) (compteId l) (tiers l) (libelle l)
          v (credit l) (piece l) (isNew l) (isHeader l).
Definition set_credit (v : string) (l : LigneEcriture) : LigneEcriture :=
  mkLigne (id l) (tempId l) (date l) (compte l) (compteId l) (tiers l) (libelle l)
          (debit l) v (piece l) (isNew l) (isHeader l).
Definition set_piece (v : option string) (l : LigneEcriture) : LigneEcriture :=
  mkLigne (id l) (tempId l) (date l) (compte l) (compteId l) (tiers l) (libelle l)
          (debit l) (credit l) v (isNew l) (isHeader l).

(** The keys the grid passes to [updateCell], all of them string-valued. *)
Inductive field := F_date | F_piece | F_compte | F_tiers | F_libelle | F_debit | F_credit.

Definition field_eqb (a b : field) : bool :=
  match a, b with
  | F_date, F_date | F_piece, F_piece | F_compte, F_compte | F_tiers, F_tiers
  | F_libelle, F_libelle | F_debit, F_debit | F_credit, F_credit => true
  | _, _ => false
  end.

(** [{ ...ligne, [field]: value }]. *)
Definition set_field (f : field) (v : string) (l : LigneEcriture) : LigneEcriture :=
  match f with
  | F_date => set_date (Some v) l
  | F_piece => set_piece (Some v) l
  | F_compte => set_compte v l
  | F_tiers => set_tiers v l
  | F_libelle => set_libelle v l
  | F_debit => set_debit v l
  | F_credit => set_credit v l
  end.

(** The payload sent to the entries service, and its detail entries. *)
Module LigneData.
Record t := mk {
  compte : Z;
  libelle : string;
  montant_debit : float;
  montant_credit : float;
  piece : string
}.
End LigneData.

Module Ecriture.
Record t := mk {
  journal : float;
  periode : float;
  exercice : option Z;
  date_ecriture : option string;
  libelle : string;
  reference : string;
  lignes_data : list LigneData.t
}.

(** [ecriture.lignes]: the object literal of [validerEcriture] defines
    [lignes_data] and no property called [lignes], so the read gives
    [undefined]. *)
Definition lignes (e : t) : option (list LigneData.t) := None.

(** [ecriture.lignes_data.push(d)]. *)
Definition push (d : LigneData.t) (e : t) : t :=
  mk (journal e) (periode e) (exercice e) (date_ecriture e) (libelle e)
     (reference e) (lignes_data e ++ [d]).
End Ecriture.

(** ** Component state and handlers *)

(** The state the handlers below read and write. *)
Record State := mkState {
  lignes : list LigneEcriture;
  currentRow : nat;
  currentCol : nat;
  saving : bool
}.

(** What an [alert] says. *)
Inductive message :=
| MsgSelection
  (** 'Veuillez sélectionner un journal et une période' *)
| MsgDesequilibre
  (** 'L'écriture n'est pas équilibrée' *)
| MsgSucces (n : nat)
  (** '<n> écriture(s) créée(s) avec succès' *)
| MsgEchec (text : option string)
  (** the error text of the response, or, for [None], 'Erreur lors de la
      sauvegarde' *).

(** A handler is a closure of one render: it reads that render's state and
    queues state updates, which take effect, in order, once it is done.  A
    later read in the same handler still sees the render's value.  Alerts
    and create calls are recorded in the same queue and change no state. *)
Inductive update :=
| SetLignes (v : list LigneEcriture)
| SetCurrentRow (v : nat)
| SetCurrentCol (v : nat)
| SetSaving (v : bool)
| Alert (msg : message)
| Create (e : Ecriture.t)
  (** one awaited [ecrituresService.create] call *).

Inductive error :=
| TypeError
  (** a property of [undefined] is read *)
| SparseArray
  (** [updateCell] writes past the end of the array: the result has holes
      and a partial object, which [list LigneEcriture] cannot hold; the grid
      only passes indices of rendered rows *).

Inductive completion (A : Type) :=
| Normal (a : A)
| Throw (e : error).
Arguments Normal {A} a.
Arguments Throw {A} e.

Definition handler (A : Type) : Type := list update * completion A.

Definition ret {A} (a : A) : handler A := ([], Normal a).
Definition throw {A} (e : error) : handler A := ([], Throw e).
Definition emit (u : update) : handler unit := ([u], Normal tt).
Definition bind {A B} (m : handler A) (k : A -> handler B) : handler B :=
  match m with
  | (us, Normal a) => let '(us', r) := k a in (us ++ us', r)
  | (us, Throw e) => (us, Throw e)
  end.

Declare Scope handler_scope.
Delimit Scope handler_scope with handler.
Notation "x <- m ;; k" := (bind m (fun x => k))
  (at level 61, m at next level, right associativity) : handler_scope.
Notation "m ;; k" := (bind m (fun _ => k))
  (at level 61, right associativity) : handler_scope.
Local Open Scope handler_scope.

Definition apply_update (s : State) (u : update) : State :=
  match u with
  | SetLignes v => mkState v (currentRow s) (currentCol s) (saving s)
  | SetCurrentRow v => mkState (lignes s) v (currentCol s) (saving s)
  | SetCurrentCol v => mkState (lignes s) (currentRow s) v (saving s)
  | SetSaving v => mkState (lignes s) (currentRow s) (currentCol s) v
  | Alert _ | Create _ => s
  end.

(** The state of the next render after a handler has run. *)
Definition settle {A} (s : State) (h : handler A) : State :=
  fold_left apply_update (fst h) s.

(** The clock readings a handler takes: [Date.now().toString()], twice, and
    [new Date().toISOString().split('T')[0]]. *)
Record Clock := mkClock { now0 : string; now1 : string; today : string }.

(** *** Array helpers *)

(** [a.splice(i, 0, x)] on a copy. *)
Definition splice_insert {A} (a : list A) (i : nat) (x : A) : list A :=
  firstn i a ++ x :: skipn i a.

(** [a[i] = f(a[i])] on a copy, for [i] within bounds. *)
Fixpoint update_at {A} (a : list A) (i : nat) (f : A -> A) : list A :=
  match a, i with
  | [], _ => []
  | x :: r, O => f x :: r
  | x :: r, S j => x :: update_at r j f
  end.

(** *** addNewEcriture *)

Definition newEcriture (c : Clock) : list LigneEcriture :=
  [ mkLigne None (now0 c) (Some (today c)) "" None "" "" "" "" (Some "")
            (Some true) (Some true);
    mkLigne None (now1 c ++ "_1")%string None "" None "" "" "" "" (Some "")
            (Some true) None ].

(** [setLignes([...lignes, ...newEcriture])]. *)
Definition addNewEcriture (s : State) (c : Clock) : handler unit :=
  emit (SetLignes (lignes s ++ newEcriture c)).

(** *** addLigneToCurrentEcriture *)

(** The [while] loop: [rest] is [lignes] from index [i] on. *)
Fixpoint scanToHeader (rest : list LigneEcriture) (i : nat) : nat :=
  match rest with
  | l :: rest' => if is_header l then i else scanToHeader rest' (S i)
  | [] => i
  end.

(** [insertIndex] after the loop, which starts at [currentRow + 1]. *)
Definition insertIndex (ls : list LigneEcriture) (row : nat) : nat :=
  scanToHeader (skipn (row + 1) ls) (row + 1).

(** The object literal [newLigne]; [lib] is [lignes[currentRow].libelle]. *)
Definition newLigne (now : string) (lib : string) : LigneEcriture :=
  mkLigne None now None "" None "" lib "" "" (Some "") (Some true) None.

(** Building [newLigne] reads [lignes[currentRow].libelle], which throws
    when [currentRow] is not the index of a line. *)
Definition addLigneToCurrentEcriture (s : State) (c : Clock) : handler unit :=
  match nth_error (lignes s) (currentRow s) with
  | None => throw TypeError
  | Some cur =>
      emit (SetLignes
              (splice_insert (lignes s) (insertIndex (lignes s) (currentRow s))
                             (newLigne (now0 c) (libelle cur))))
  end.

(** *** updateCell *)

(** The propagation loop: [rest] is [lignes] from index [i] on and [old]
    is [lignes[row].libelle], the header's description before the edit. *)
Fixpoint propagate (old value : string) (rest : list LigneEcriture)
  : list LigneEcriture :=
  match rest with
  | l :: rest' =>
      if is_header l then rest
      else (if negb (JS.truthy (libelle l)) || (libelle l =? old)%string
            then set_libelle value l else l) :: propagate old value rest'
  | [] => []
  end.

(** [newLignes] when [setLignes] is called; [cur] is [lignes[row]]. *)
Definition updateCell_lignes (ls : list LigneEcriture) (row : nat) (f : field)
           (value : string) (cur : LigneEcriture) : list LigneEcriture :=
  firstn row ls ++ set_field f value cur ::
    (if field_eqb f F_libelle && is_header cur
     then propagate (libelle cur) value (skipn (row + 1) ls)
     else skipn (row + 1) ls).

Definition updateCell (s : State) (row : nat) (f : field) (value : string)
  : handler unit :=
  match nth_error (lignes s) row with
  | None => throw (if field_eqb f F_libelle then TypeError else SparseArray)
  | Some cur => emit (SetLignes (updateCell_lignes (lignes s) row f value cur))
  end.

(** *** handleCompteSearch *)

(** [updateCell] queues a first sequence, in which line [row] is a copy
    with the typed text.  When an account is found, a second sequence is
    queued: a copy of the render's [lignes], in which line [row] is the
    render's own line object, given the identifier. *)
Definition handleCompteSearch (s : State) (comptes : list Compte.t) (row : nat)
           (value : string) : handler unit :=
  updateCell s row F_compte value ;;
  match find (fun c => JS.startsWith (Compte.code c) value) comptes with
  | Some c =>
      match nth_error (lignes s) row with
      | None => throw TypeError
      | Some _ =>
          emit (SetLignes (update_at (lignes s) row
                                     (set_compteId (Some (Compte.id c)))))
      end
  | None => ret tt
  end.

(** *** The totals effect *)

(** The effect recomputes both totals from [lignes] after every render in
    which [lignes] changed, so a handler reads the totals of the lines it
    sees. *)
Definition totals_step (acc : float * float) (ligne : LigneEcriture)
  : float * float :=
  let '(d, c) := acc in
  if negb (is_header ligne)
  then ((d + JS.parseFloat (JS.or_else (debit ligne) "0"))%float,
        (c + JS.parseFloat (JS.or_else (credit ligne) "0"))%float)
  else (d, c).

Definition totals (ls : list LigneEcriture) : float * float :=
  fold_left totals_step ls (0%float, 0%float).

Definition totalDebit (ls : list LigneEcriture) : float := fst (totals ls).
Definition totalCredit (ls : list LigneEcriture) : float := snd (totals ls).

(** The test of the footer indicator: [Math.abs(totalDebit - totalCredit) < 0.01]. *)
Definition equilibre (ls : list LigneEcriture) : bool :=
  JS.lt (JS.Math_abs (totalDebit ls - totalCredit ls)) 0.01.

(** *** equilibrerEcriture *)

(** The test of the backward loop, "dernière ligne non vide". *)
Definition non_vide (l : LigneEcriture) : bool :=
  negb (is_header l)
  && (JS.truthy (compte l) || JS.truthy (debit l) || JS.truthy (credit l)).

(** The [for] loop from [n - 1] down to [0]. *)
Fixpoint lastIndexBelow (ls : list LigneEcriture) (n : nat) : option nat :=
  match n with
  | O => None
  | S i =>
      match nth_error ls i with
      | Some l => if non_vide l then Some i else lastIndexBelow ls i
      | None => lastIndexBelow ls i
      end
  end.

Definition lastIndex (ls : list LigneEcriture) : option nat :=
  lastIndexBelow ls (List.length ls).

Definition equilibrerEcriture (s : State) : handler unit :=
  let ecart := (totalDebit (lignes s) - totalCredit (lignes s))%float in
  if JS.lt (JS.Math_abs ecart) 0.01 then ret tt
  else
    match lastIndex (lignes s) with
    | None => ret tt
    | Some i =>
        emit (SetLignes
                (if JS.gt ecart 0
                 then update_at (lignes s) i
                        (fun l => set_debit "" (set_credit (JS.toFixed ecart 2) l))
                 else update_at (lignes s) i
                        (fun l => set_credit ""
                                    (set_debit (JS.toFixed (JS.Math_abs ecart) 2) l))))
    end.

(** *** handleKeyDown *)

Inductive key := Tab | Enter | ArrowUp | ArrowDown | F2 | F5 | OtherKey.

Definition totalCols : nat := 7.

(** [row < lignes.length - 1]. *)
Definition has_next (ls : list LigneEcriture) (row : nat) : bool :=
  (Z.of_nat row <? Z.of_nat (List.length ls) - 1)%Z.

Definition handleKeyDown (s : State) (c : Clock) (k : key) (shiftKey : bool)
           (row col : nat) : handler unit :=
  match k with
  | Tab =>
      if shiftKey then
        if (0 <? col)%nat then emit (SetCurrentCol (col - 1))
        else if (0 <? row)%nat then
          emit (SetCurrentRow (row - 1)) ;; emit (SetCurrentCol (totalCols - 1))
        else ret tt
      else
        if (col <? totalCols - 1)%nat then emit (SetCurrentCol (col + 1))
        else if has_next (lignes s) row then
          emit (SetCurrentRow (row + 1)) ;; emit (SetCurrentCol 0)
        else
          addLigneToCurrentEcriture s c ;;
          emit (SetCurrentRow (row + 1)) ;; emit (SetCurrentCol 0)
  | Enter =>
      if has_next (lignes s) row then emit (SetCurrentRow (row + 1))
      else
        addLigneToCurrentEcriture s c ;;
        emit (SetCurrentRow (row + 1)) ;; emit (SetCurrentCol 0)
  | ArrowUp => if (0 <? row)%nat then emit (SetCurrentRow (row - 1)) else ret tt
  | ArrowDown =>
      if has_next (lignes s) row then emit (SetCurrentRow (row + 1)) else ret tt
  | F2 => addNewEcriture s c
  | F5 => equilibrerEcriture s
  | OtherKey => ret tt
  end.

(** [onFocus] of the input at [(row, col)]. *)
Definition onFocus (row col : nat) : handler unit :=
  emit (SetCurrentRow row) ;; emit (SetCurrentCol col).

(** *** validerEcriture *)

(** [create] stands for the entries service: what it answers to each
    payload. *)
(** The selections of the page header. *)
Record Selection := mkSelection {
  selectedJournal : string;
  selectedPeriode : string;
  exerciceId : option Z
}.

(** [a.forEach(f)] with the variables [f] assigns threaded as [st]. *)
Fixpoint forEach {A St} (f : St -> A -> handler St) (a : list A) (st : St)
  : handler St :=
  match a with
  | [] => ret st
  | x :: r => st' <- f st x ;; forEach f r st'
  end.

Definition ligne_data (ligne : LigneEcriture) (cid : Z) : LigneData.t :=
  LigneData.mk cid (libelle ligne)
               (JS.parseFloat (JS.or_else (debit ligne) "0"))
               (JS.parseFloat (JS.or_else (credit ligne) "0"))
               (piece_or_empty ligne).

Definition nouvelle_ecriture (sel : Selection) (ligne : LigneEcriture) : Ecriture.t :=
  Ecriture.mk (JS.parseInt (selectedJournal sel)) (JS.parseInt (selectedPeriode sel))
              (exerciceId sel) (date ligne) (libelle ligne) (piece_or_empty ligne) [].

(** The body of the grouping [forEach]; the pair is [(ecritures, currentEcriture)]. *)
Definition group_step (sel : Selection)
           (st : list Ecriture.t * option Ecriture.t) (ligne : LigneEcriture)
  : handler (list Ecriture.t * option Ecriture.t) :=
  let '(ecritures, currentEcriture) := st in
  if is_header ligne && JS.truthy (compte ligne) then
    ecritures' <-
      match currentEcriture with
      | Some e =>
          match Ecriture.lignes e with
          | None => throw TypeError
          | Some l =>
              ret (if (2 <=? List.length l)%nat then ecritures ++ [e] else ecritures)
          end
      | None => ret ecritures
      end ;;
    ret (ecritures', Some (nouvelle_ecriture sel ligne))
  else
    match currentEcriture, compteId ligne with
    | Some e, Some cid =>
        if JS.truthy (compte ligne) && JS.truthy_id cid
        then ret (ecritures, Some (Ecriture.push (ligne_data ligne cid) e))
        else ret st
    | _, _ => ret st
    end.

(** The final flush, on [lignes_data]. *)
Definition flush_last (st : list Ecriture.t * option Ecriture.t) : list Ecriture.t :=
  let '(ecritures, currentEcriture) := st in
  match currentEcriture with
  | Some e =>
      if (2 <=? List.length (Ecriture.lignes_data e))%nat
      then ecritures ++ [e] else ecritures
  | None => ecritures
  end.

(** "Grouper par écriture". *)
Definition grouper (sel : Selection) (ls : list LigneEcriture)
  : handler (list Ecriture.t) :=
  st <- forEach (group_step sel) ls ([], None) ;;
  ret (flush_last st).

(** The answer of the entries service to one create call. *)
Inductive reply := Created | Rejected (text : option string).

(** The [for ... of] loop with its [await]: the first rejection leaves the
    loop with the error. *)
Fixpoint envoyer (create : Ecriture.t -> reply) (es : list Ecriture.t)
  : handler (option (option string)) :=
  match es with
  | [] => ret None
  | e :: r =>
      emit (Create e) ;;
      match create e with
      | Created => envoyer create r
      | Rejected t => ret (Some t)
      end
  end.

(** [err.response?.data?.error || 'Erreur lors de la sauvegarde']: a
    missing or empty error text gives the fallback message. *)
Definition texte_erreur (t : option string) : option string :=
  match t with
  | Some x => if JS.truthy x then Some x else None
  | None => None
  end.

(** The updates queued up to an [await] are rendered while the call is
    pending; [Create] marks these points (see [rendus]). *)
Definition validerEcriture (s : State) (sel : Selection) (c : Clock)
           (create : Ecriture.t -> reply) : handler unit :=
  if negb (JS.truthy (selectedJournal sel)) || negb (JS.truthy (selectedPeriode sel))
  then emit (Alert MsgSelection)
  else if JS.ge (JS.Math_abs (totalDebit (lignes s) - totalCredit (lignes s))) 0.01
  then emit (Alert MsgDesequilibre)
  else
    ecritures <- grouper sel (lignes s) ;;
    emit (SetSaving true) ;;
    r <- envoyer create ecritures ;;
    match r with
    | None =>
        emit (Alert (MsgSucces (List.length ecritures))) ;;
        emit (SetLignes []) ;;
        addNewEcriture s c
    | Some t => emit (Alert (MsgEchec (texte_erreur t)))
    end ;;
    emit (SetSaving false).

(** *** The session *)

(** The first render, and the state once [loadInitialData] has called
    [addNewEcriture]. *)
Definition first_render : State := mkState [] 0 0 false.

Definition initial (c : Clock) : State :=
  settle first_render (addNewEcriture first_render c).

(** ** The totals as the specification words them *)

(** "parsed as decimal (treat blank/unparseable as 0)". *)
Definition spec_montant (text : string) : float :=
  let v := JS.parseFloat text in if is_nan v then 0%float else v.

(** A sum taken in sequence order, from [0]. *)
Definition somme (xs : list float) : float := fold_left add xs 0%float.

Definition detail (l : LigneEcriture) : bool := negb (is_header l).

Definition spec_total (f : LigneEcriture -> string) (ls : list LigneEcriture) : float :=
  somme (map (fun l => spec_montant (f l)) (filter detail ls)).

Definition spec_equilibre (ls : list LigneEcriture) : bool :=
  JS.lt (JS.Math_abs (spec_total debit ls - spec_total credit ls)) 0.01.

(** What the code adds for one line. *)
Definition montant (text : string) : float := JS.parseFloat (JS.or_else text "0").

(** ** Sample session data *)

Module Exemple.
Definition horloge : Clock := mkClock "1717200000000" "1717200000001" "2024-06-01".

Definition entete : LigneEcriture :=
  mkLigne None "t0" (Some "2024-06-01") "601" None "" "Achat fournitures" "" ""
          (Some "") (Some true) (Some true).

Definition ligne (tid cpt : string) (cid : Z) (lib d c : string) : LigneEcriture :=
  mkLigne None tid None cpt (Some cid) "" lib d c (Some "") (Some true) None.

Definition achat (d : string) : LigneEcriture :=
  ligne "t1" "601" 1 "Achat fournitures" d "".
Definition fournisseur (c : string) : LigneEcriture :=
  ligne "t2" "401" 2 "Achat fournitures" "" c.

Definition entete_sans_compte : LigneEcriture :=
  mkLigne None "t3" (Some "2024-06-02") "" None "" "Autre" "" ""
          (Some "") (Some true) (Some true).

(** A transaction whose detail lines follow the header's description, have
    none, or have one of their own, followed by another transaction. *)
Definition details_libelles : list LigneEcriture :=
  [ achat "150.00"; ligne "t4" "445" 3 "" "" "";
    ligne "t5" "401" 2 "Transport" "" "150.00" ].

Definition suite_libelles : list LigneEcriture := [ entete_sans_compte; achat "" ].

Definition etat_libelles : State :=
  mkState (entete :: details_libelles ++ suite_libelles) 0 4 false.

Definition selection : Selection := mkSelection "3" "12" (Some 1%Z).

(** The payload of the transaction [entete; achat "100.00"; fournisseur
    "100.00"] under [selection]. *)
Definition payload : Ecriture.t :=
  Ecriture.mk 3 12 (Some 1%Z) (Some "2024-06-01") "Achat fournitures" ""
    [ LigneData.mk 1 "Achat fournitures" 100 0 "";
      LigneData.mk 2 "Achat fournitures" 0 100 "" ].

End Exemple.

(** ** The rest of the page *)

(** [disabled] of the "Valider" button:
    [saving || Math.abs(totalDebit - totalCredit) >= 0.01]. *)
Definition valider_disabled (s : State) : bool :=
  saving s || JS.ge (JS.Math_abs (totalDebit (lignes s) - totalCredit (lignes s))) 0.01.

(** [a.find((x, i) => p(x, i))], with [i] the index of the head of [a]. *)
Fixpoint find_indexed {A} (p : A -> nat -> bool) (a : list A) (i : nat) : option A :=
  match a with
  | [] => None
  | x :: r => if p x i then Some x else find_indexed p r (S i)
  end.

(** The date handed to [formatDateToDay] in the first cell of a detail row:
    [lignes.find((l, i) => i < rowIndex && l.isHeader)?.date]. *)
Definition date_affichee (ls : list LigneEcriture) (rowIndex : nat) : option string :=
  match find_indexed (fun l i => (i <? rowIndex)%nat && is_header l) ls 0 with
  | Some l => date l
  | None => None
  end.

(** The states the page renders while a handler runs and when it is done.
    A handler runs to its first [await] within one event, and React 18
    batches the updates queued between two awaits: each awaited create call
    is a point where the updates queued so far are rendered, and the last
    state is the one [settle] gives. *)
Fixpoint rendus_depuis (s : State) (us : list update) : list State :=
  match us with
  | [] => [s]
  | Create e :: r => s :: rendus_depuis s r
  | u :: r => rendus_depuis (apply_update s u) r
  end.

Definition rendus {A} (s : State) (h : handler A) : list State :=
  rendus_depuis s (fst h).

(** The events of the page that reach a handler, with what the browser
    and the services supply to it. *)
Inductive event :=
| KeyDown (c : Clock) (k : key) (shiftKey : bool) (row col : nat)
| CellFocus (row col : nat)
| CellChange (row : nat) (f : field) (value : string)
| CompteChange (comptes : list Compte.t) (row : nat) (value : string)
| ClickNouvelle (c : Clock)
| ClickEquilibrer
| ClickValider (sel : Selection) (c : Clock) (create : Ecriture.t -> reply).

(** The state of the render that follows an event. *)
Definition dispatch (s : State) (e : event) : State :=
  match e with
  | KeyDown c k shiftKey row col => settle s (handleKeyDown s c k shiftKey row col)
  | CellFocus row col => settle s (onFocus row col)
  | CellChange row f value => settle s (updateCell s row f value)
  | CompteChange comptes row value => settle s (handleCompteSearch s comptes row value)
  | ClickNouvelle c => settle s (addNewEcriture s c)
  | ClickEquilibrer => settle s (equilibrerEcriture s)
  | ClickValider sel c create => settle s (validerEcriture s sel c create)
  end.

(** The payloads before the first one the service rejects, and that one. *)
Fixpoint envoyees (create : Ecriture.t -> reply) (es : list Ecriture.t)
  : list Ecriture.t :=
  match es with
  | [] => []
  | e :: r =>
      e :: match create e with Created => envoyees create r | Rejected _ => [] end
  end.

(** ** Vocabulary for the statements *)

(** A header line with a non-empty account code: the lines that open a
    pending transaction. *)
Definition porte_compte (l : LigneEcriture) : bool :=
  is_header l && JS.truthy (compte l).

(** The detail entry a line contributes to the pending transaction: one
    entry when it has a typed account code and a resolved identifier. *)
Definition entry_of (l : LigneEcriture) : list LigneData.t :=
  match compteId l with
  | Some cid =>
      if JS.truthy (compte l) && JS.truthy_id cid then [ligne_data l cid] else []
  | None => []
  end.

Definition with_data (e : Ecriture.t) (d : list LigneData.t) : Ecriture.t :=
  Ecriture.mk (Ecriture.journal e) (Ecriture.periode e) (Ecriture.exercice e)
              (Ecriture.date_ecriture e) (Ecriture.libelle e)
              (Ecriture.reference e) d.

(** Whether a detail line still follows its header's description: its own
    description is empty or equal to the header's previous one. *)
Definition suit_entete (old : string) (l : LigneEcriture) : bool :=
  (libelle l =? "")%string || (libelle l =? old)%string.

(** The operations of a session on the line sequence: F2 or the "Nouvelle
    Écriture" button, a line appended from the keyboard, and a change of
    the focused cell, which is what moves [currentRow]. *)
Inductive operation :=
| NouvelleEcriture (c : Clock)
| AjouterLigne (c : Clock)
| Focus (row col : nat).

Definition step (s : State) (o : operation) : State :=
  match o with
  | NouvelleEcriture c => settle s (addNewEcriture s c)
  | AjouterLigne c => settle s (addLigneToCurrentEcriture s c)
  | Focus row col => settle s (onFocus row col)
  end.

Definition run (s : State) (os : list operation) : State := fold_left step os s.

(** The first line of the sequence is a header line. *)
Definition premiere_est_entete (ls : list LigneEcriture) : Prop :=
  exists h rest, ls = h :: rest /\ is_header h = true.

(** The nearest header line at an index below [n], scanning backward. *)
Fixpoint enteteAvant (ls : list LigneEcriture) (n : nat) : option nat :=
  match n with
  | O => None
  | S i =>
      match nth_error ls i with
      | Some l => if is_header l then Some i else enteteAvant ls i
      | None => enteteAvant ls i
      end
  end.

(** Line [i] belongs to the transaction opened at [j]: [j] holds a header
    line, it comes before [i], and no line after [j] up to [i] is a header. *)
Definition appartient (ls : list LigneEcriture) (i j : nat) : Prop :=
  j < i
  /\ (exists h, nth_error ls j = Some h /\ is_header h = true)
  /\ (forall k l, j < k -> k <= i -> nth_error ls k = Some l -> is_header l = false).

(** What follows the lines of a transaction: the end of the sequence or
    the next header line. *)
Definition fin_ou_entete (rest : list LigneEcriture) : Prop :=
  match rest with [] => True | h :: _ => is_header h = true end.

(** ** Properties *)

(** *** Handlers and state *)

Lemma bind_ret_l {A B} (a : A) (k : A -> handler B) : bind (ret a) k = k a.
Proof. unfold bind, ret. destruct (k a); reflexivity. Qed.

Lemma bind_ext {A B} (m : handler A) (k k' : A -> handler B) :
  (forall a, k a = k' a) -> bind m k = bind m k'.
Proof.
  intros E. destruct m as [us [a | e]]; simpl; [rewrite E|]; reflexivity.
Qed.

Lemma bind_assoc {A B C} (m : handler A) (k : A -> handler B) (k' : B -> handler C) :
  bind (bind m k) k' = bind m (fun a => bind (k a) k').
Proof.
  destruct m as [us [a | e]]; simpl; [|reflexivity].
  destruct (k a) as [us1 [b | e]]; simpl; [|reflexivity].
  destruct (k' b) as [us2 r]. now rewrite app_assoc.
Qed.

Lemma forEach_app {A St} (f : St -> A -> handler St) (a1 a2 : list A) (st : St) :
  forEach f (a1 ++ a2) st = bind (forEach f a1 st) (forEach f a2).
Proof.
  revert st. induction a1 as [| x r IH]; intros st.
  - change (forEach f a2 st = bind (ret st) (forEach f a2)).
    now rewrite bind_ret_l.
  - cbn [forEach app]. rewrite bind_assoc. now apply bind_ext.
Qed.

(** *** Totals *)

Lemma totals_step_fold (ls : list LigneEcriture) (d c : float) :
  fold_left totals_step ls (d, c)
  = (fold_left add (map (fun l => montant (debit l)) (filter detail ls)) d,
     fold_left add (map (fun l => montant (credit l)) (filter detail ls)) c).
Proof.
  revert d c. induction ls as [| l r IH]; intros d c; [reflexivity|].
  cbn [fold_left filter totals_step].
  replace (detail l) with (negb (is_header l)) by reflexivity.
  destruct (negb (is_header l)); cbn [map fold_left]; apply IH.
Qed.

(** Header lines are skipped wherever they stand. *)
Lemma totals_skip_header (l1 l2 : list LigneEcriture) (h : LigneEcriture) :
  is_header h = true -> totals (l1 ++ h :: l2) = totals (l1 ++ l2).
Proof.
  intros Hh. unfold totals. rewrite !fold_left_app. simpl.
  destruct (fold_left totals_step l1 (0%float, 0%float)) as [d c].
  simpl. now rewrite Hh.
Qed.

(** **** NaN in the totals *)

Lemma is_nan_eq (x : float) : is_nan x = true -> x = nan.
Proof.
  intros H. apply Prim2SF_inj. unfold Prim2SF at 1. now rewrite H.
Qed.

Lemma add_nan_r (x : float) : (x + nan)%float = nan.
Proof.
  apply Prim2SF_inj. rewrite add_spec.
  change (Prim2SF nan) with S754_nan. now destruct (Prim2SF x).
Qed.

Lemma add_nan_l (x : float) : (nan + x)%float = nan.
Proof.
  apply Prim2SF_inj. rewrite add_spec.
  change (Prim2SF nan) with S754_nan. reflexivity.
Qed.

Lemma sub_nan_l (x : float) : (nan - x)%float = nan.
Proof.
  apply Prim2SF_inj. rewrite sub_spec.
  change (Prim2SF nan) with S754_nan. reflexivity.
Qed.

Lemma sub_nan_r (x : float) : (x - nan)%float = nan.
Proof.
  apply Prim2SF_inj. rewrite sub_spec.
  change (Prim2SF nan) with S754_nan. now destruct (Prim2SF x).
Qed.

Lemma abs_nan_lt (y : float) : JS.lt (JS.Math_abs nan) y = false.
Proof.
  unfold JS.lt, JS.Math_abs. rewrite ltb_spec, abs_spec.
  change (Prim2SF nan) with S754_nan. reflexivity.
Qed.

Lemma fold_add_nan (xs : list float) : fold_left add xs nan = nan.
Proof.
  induction xs as [| x xs IH]; [reflexivity|]. cbn. now rewrite add_nan_l.
Qed.

Lemma fold_add_in_nan (xs : list float) (a : float) :
  In nan xs -> fold_left add xs a = nan.
Proof.
  revert a. induction xs as [| x xs IH]; intros a []; cbn.
  - subst x. rewrite add_nan_r. apply fold_add_nan.
  - now apply IH.
Qed.

(** One detail line whose amount text does not parse turns the total into
    NaN, and the indicator off. *)
Lemma totals_nan (f : LigneEcriture -> string) (ls : list LigneEcriture)
      (l : LigneEcriture) :
  In l ls -> is_header l = false -> is_nan (montant (f l)) = true ->
  somme (map (fun l => montant (f l)) (filter detail ls)) = nan.
Proof.
  intros Hin Hh Hn. apply fold_add_in_nan.
  rewrite <- (is_nan_eq _ Hn).
  apply (in_map (fun l => montant (f l))). apply filter_In. split; [exact Hin|].
  unfold detail. now rewrite Hh.
Qed.

(** The totals as the code computes them: the total debit is the sum, in
    sequence order from 0,
    of [parseFloat(debit || '0')] over the non-header lines, the total
    credit is the same sum over the credit fields, the equilibrium flag
    holds exactly when [|total debit - total credit| < 0.01], and a blank
    field adds 0.  Header lines are filtered out, so they never contribute.
    Text that does not parse is not counted as 0: on a detail line it makes
    the total NaN and the flag false. *)
Theorem totals_are_sums (ls : list LigneEcriture) :
  totalDebit ls = somme (map (fun l => montant (debit l)) (filter detail ls))
  /\ totalCredit ls = somme (map (fun l => montant (credit l)) (filter detail ls))
  /\ (equilibre ls = true
      <-> JS.lt (JS.Math_abs (totalDebit ls - totalCredit ls)) 0.01 = true)
  /\ montant "" = 0%float
  /\ (forall l, In l ls -> is_header l = false ->
                is_nan (montant (debit l)) = true ->
                totalDebit ls = nan /\ equilibre ls = false)
  /\ (forall l, In l ls -> is_header l = false ->
                is_nan (montant (credit l)) = true ->
                totalCredit ls = nan /\ equilibre ls = false).
Proof.
  assert (Hd : totalDebit ls
               = somme (map (fun l => montant (debit l)) (filter detail ls)))
    by (unfold totalDebit, totals, somme; now rewrite totals_step_fold).
  assert (Hc : totalCredit ls
               = somme (map (fun l => montant (credit l)) (filter detail ls)))
    by (unfold totalCredit, totals, somme; now rewrite totals_step_fold).
  split; [exact Hd|]. split; [exact Hc|].
  split; [unfold equilibre; reflexivity|].
  split; [vm_compute; reflexivity|].
  split; intros l Hin Hh Hn.
  - assert (E : totalDebit ls = nan) by (rewrite Hd; now apply (totals_nan debit ls l)).
    split; [exact E|]. unfold equilibre. rewrite E, sub_nan_l. apply abs_nan_lt.
  - assert (E : totalCredit ls = nan) by (rewrite Hc; now apply (totals_nan credit ls l)).
    split; [exact E|]. unfold equilibre. rewrite E, sub_nan_r. apply abs_nan_lt.
Qed.

(** On text that does not parse the code's total is
    NaN where the specification's sum counts 0, and the flag is off where
    the specification's is on. *)
Lemma totals_unparseable_counterexample :
  let ls := [Exemple.entete; Exemple.achat "abc"] in
  totalDebit ls <> spec_total debit ls
  /\ equilibre ls = false /\ spec_equilibre ls = true.
Proof.
  cbv zeta. split; [|split; vm_compute; reflexivity].
  intros E. apply (f_equal is_nan) in E. vm_compute in E. discriminate E.
Qed.

(** C3: an amount text that does not parse, written by the page itself.
    Two lines with debit "1e308" (text a number input accepts) and a third
    line with an account only: the total debit overflows to Infinity.  A
    first F5 writes credit "Infinity" on the third line; both totals are
    then Infinity and the gap is NaN, so a second F5 writes debit "NaN"
    there.  That text does not parse: the code's total debit is NaN, where
    the sum that counts unparseable text as 0 is Infinity. *)
Theorem totals_nan_written_by_equilibrer :
  let s0 := mkState [Exemple.entete;
                     Exemple.ligne "t1" "601" 1 "Achat fournitures" "1e308" "";
                     Exemple.ligne "t2" "602" 3 "Achat fournitures" "1e308" "";
                     Exemple.ligne "t3" "401" 2 "Achat fournitures" "" ""]
                    3 2 false in
  let s1 := settle s0 (equilibrerEcriture s0) in
  let s2 := settle s1 (equilibrerEcriture s1) in
  map debit (lignes s1) = [""; "1e308"; "1e308"; ""]
  /\ map credit (lignes s1) = [""; ""; ""; "Infinity"]
  /\ map debit (lignes s2) = [""; "1e308"; "1e308"; "NaN"]
  /\ map credit (lignes s2) = [""; ""; ""; ""]
  /\ is_nan (JS.parseFloat "NaN") = true
  /\ is_nan (totalDebit (lignes s2)) = true
  /\ spec_total debit (lignes s2) = infinity
  /\ totalCredit (lignes s2) = 0%float
  /\ spec_total credit (lignes s2) = 0%float.
Proof. cbv zeta. repeat split; vm_compute; reflexivity. Qed.

(** *** Auto-balance *)

Lemma settle_emit_lignes (s : State) (v : list LigneEcriture) :
  lignes (settle s (emit (SetLignes v))) = v.
Proof. reflexivity. Qed.

Lemma nth_error_update_at {A} (a : list A) (i j : nat) (f : A -> A) :
  nth_error (update_at a i f) j
  = if (i =? j)%nat then option_map f (nth_error a j) else nth_error a j.
Proof.
  revert i j. induction a as [| x r IH]; intros i j.
  - destruct i, j; simpl; try reflexivity; now destruct (i =? j)%nat.
  - destruct i, j; simpl; try reflexivity. apply IH.
Qed.

Lemma length_update_at {A} (a : list A) (i : nat) (f : A -> A) :
  List.length (update_at a i f) = List.length a.
Proof.
  revert i. induction a as [| x r IH]; intros [| i]; simpl; auto.
Qed.

(** What the backward scan returns: the greatest index below [n] holding a
    non-header line with an account, a debit or a credit. *)
Lemma lastIndexBelow_some (ls : list LigneEcriture) (n i : nat) :
  n <= List.length ls ->
  lastIndexBelow ls n = Some i ->
  i < n
  /\ (exists l, nth_error ls i = Some l /\ non_vide l = true)
  /\ (forall j l, i < j -> j < n -> nth_error ls j = Some l -> non_vide l = false).
Proof.
  induction n as [| n IH]; intros Hn H; [discriminate|].
  simpl in H. destruct (nth_error ls n) as [l |] eqn:E.
  - destruct (non_vide l) eqn:V.
    + injection H as <-. split; [lia|]. split; [eauto|]. intros; lia.
    + destruct (IH ltac:(lia) H) as (Hi & Hl & Hj). split; [lia|]. split; [exact Hl|].
      intros j l' Hij Hjn Hj'. destruct (Nat.eq_dec j n) as [-> | Hne].
      * rewrite E in Hj'. now injection Hj' as <-.
      * apply (Hj j); auto; lia.
  - apply nth_error_None in E. lia.
Qed.

Lemma lastIndexBelow_none (ls : list LigneEcriture) (n : nat) :
  lastIndexBelow ls n = None ->
  forall j l, j < n -> nth_error ls j = Some l -> non_vide l = false.
Proof.
  induction n as [| n IH]; intros H j l Hj Hl; [lia|].
  simpl in H. destruct (nth_error ls n) as [l' |] eqn:E.
  - destruct (non_vide l') eqn:V; [discriminate|].
    destruct (Nat.eq_dec j n) as [-> | Hne].
    + rewrite E in Hl. now injection Hl as <-.
    + apply (IH H j); auto; lia.
  - destruct (Nat.eq_dec j n) as [-> | Hne]; [congruence|].
    apply (IH H j); auto; lia.
Qed.

(** Already balanced: nothing is queued. *)
Lemma equilibrer_noop (s : State) :
  equilibre (lignes s) = true -> equilibrerEcriture s = ret tt.
Proof.
  unfold equilibre, equilibrerEcriture. intros ->. reflexivity.
Qed.

(** Not balanced: at most the last non-empty line changes, and no line is
    added or removed. *)
Lemma equilibrer_one_line (s : State) :
  let s' := settle s (equilibrerEcriture s) in
  List.length (lignes s') = List.length (lignes s)
  /\ forall j, lastIndex (lignes s) <> Some j ->
               nth_error (lignes s') j = nth_error (lignes s) j.
Proof.
  unfold equilibrerEcriture.
  destruct (JS.lt _ _); [split; reflexivity|].
  destruct (lastIndex (lignes s)) as [i |]; [|split; reflexivity].
  destruct (JS.gt _ _); cbv zeta; rewrite settle_emit_lignes;
    (split; [apply length_update_at|]); intros j Hj;
    rewrite nth_error_update_at;
    destruct (Nat.eqb_spec i j); congruence.
Qed.

(** The line that auto-balance rewrites, when it rewrites one. *)
Lemma equilibrer_target (s : State) (i : nat) :
  equilibre (lignes s) = false ->
  lastIndex (lignes s) = Some i ->
  let ecart := (totalDebit (lignes s) - totalCredit (lignes s))%float in
  lignes (settle s (equilibrerEcriture s))
  = update_at (lignes s) i
      (if JS.gt ecart 0
       then fun l => set_debit "" (set_credit (JS.toFixed ecart 2) l)
       else fun l => set_credit "" (set_debit (JS.toFixed (JS.Math_abs ecart) 2) l)).
Proof.
  unfold equilibre, equilibrerEcriture. intros -> ->.
  destruct (JS.gt _ _); reflexivity.
Qed.

(** On a last line that carries an account and no amount, the gap is what
    balances the sequence. *)
Example equilibrer_balances_blank_line :
  let s := mkState [Exemple.entete; Exemple.achat "150.00";
                    Exemple.ligne "t2" "401" 2 "Achat fournitures" "" ""]
                   2 6 false in
  let s' := settle s (equilibrerEcriture s) in
  lignes s' = [Exemple.entete; Exemple.achat "150.00"; Exemple.fournisseur "150.00"]
  /\ equilibre (lignes s') = true.
Proof. cbv zeta. split; vm_compute; reflexivity. Qed.

(** C1: auto-balance on the specification's second scenario (detail 1 debit
    150.00, detail 2 credit 100.00).  The gap is 50.00; the last non-empty
    line gets credit "50.00" in place of its "100.00", so the totals become
    150 and 50 and the sequence is still not balanced. *)
Theorem equilibrer_leaves_unbalanced :
  let s := mkState [Exemple.entete; Exemple.achat "150.00"; Exemple.fournisseur "100.00"]
                   2 6 false in
  let s' := settle s (equilibrerEcriture s) in
  equilibre (lignes s) = false
  /\ lastIndex (lignes s) = Some 2
  /\ lignes s' = [Exemple.entete; Exemple.achat "150.00"; Exemple.fournisseur "50.00"]
  /\ totalDebit (lignes s') = 150%float
  /\ totalCredit (lignes s') = 50%float
  /\ equilibre (lignes s') = false.
Proof.
  cbv zeta. repeat split; vm_compute; reflexivity.
Qed.

(** *** Submission grouping *)

Section Grouping.
Variable sel : Selection.

Lemma bind_throw {A B} (e : error) (k : A -> handler B) :
  bind (throw e) k = throw e.
Proof. reflexivity. Qed.

Lemma group_step_pending_header ecr e h :
  porte_compte h = true ->
  group_step sel (ecr, Some e) h = throw TypeError.
Proof.
  unfold group_step, porte_compte. intros ->. reflexivity.
Qed.

Lemma group_step_first_header ecr h :
  porte_compte h = true ->
  group_step sel (ecr, None) h = ret (ecr, Some (nouvelle_ecriture sel h)).
Proof.
  unfold group_step, porte_compte. intros ->. reflexivity.
Qed.

Lemma group_step_detail ecr e l :
  porte_compte l = false ->
  group_step sel (ecr, Some e) l
  = ret (ecr, Some (with_data e (Ecriture.lignes_data e ++ entry_of l))).
Proof.
  unfold group_step, porte_compte, entry_of. intros ->.
  destruct (compteId l) as [cid |].
  - destruct (JS.truthy (compte l) && JS.truthy_id cid); [reflexivity|].
    rewrite app_nil_r. now destruct e.
  - rewrite app_nil_r. now destruct e.
Qed.

Lemma group_step_idle ecr l :
  porte_compte l = false -> group_step sel (ecr, None) l = ret (ecr, None).
Proof.
  unfold group_step, porte_compte. intros ->. reflexivity.
Qed.

(** A line that neither opens a transaction nor contributes an entry
    leaves the scan where it was. *)
Lemma group_step_skip st l :
  porte_compte l = false -> entry_of l = [] -> group_step sel st l = ret st.
Proof.
  intros Hp He. destruct st as [ecr [e |]].
  - rewrite (group_step_detail _ _ _ Hp), He, app_nil_r. now destruct e.
  - now apply group_step_idle.
Qed.

Lemma forEach_skip l1 l l2 st :
  porte_compte l = false -> entry_of l = [] ->
  forEach (group_step sel) (l1 ++ l :: l2) st
  = forEach (group_step sel) (l1 ++ l2) st.
Proof.
  intros Hp He. rewrite !forEach_app. apply bind_ext. intros st1.
  cbn [forEach]. now rewrite (group_step_skip _ _ Hp He), bind_ret_l.
Qed.

Lemma grouper_skip l1 l l2 :
  porte_compte l = false -> entry_of l = [] ->
  grouper sel (l1 ++ l :: l2) = grouper sel (l1 ++ l2).
Proof.
  intros Hp He. unfold grouper. now rewrite (forEach_skip _ _ _ _ Hp He).
Qed.

(** Lines scanned while a transaction is pending, none of them opening
    another one: their entries accumulate, in order. *)
Lemma forEach_details ds ecr e :
  Forall (fun l => porte_compte l = false) ds ->
  forEach (group_step sel) ds (ecr, Some e)
  = ret (ecr, Some (with_data e (Ecriture.lignes_data e ++ flat_map entry_of ds))).
Proof.
  intros H. revert e. induction H as [| l ds Hl _ IH]; intros e.
  - cbn [forEach flat_map]. rewrite app_nil_r. now destruct e.
  - cbn [forEach flat_map]. rewrite (group_step_detail _ _ _ Hl), bind_ret_l, IH.
    cbn [with_data Ecriture.lignes_data Ecriture.journal Ecriture.periode
         Ecriture.exercice Ecriture.date_ecriture Ecriture.libelle
         Ecriture.reference].
    now rewrite app_assoc.
Qed.

Lemma forEach_idle ds ecr :
  Forall (fun l => porte_compte l = false) ds ->
  forEach (group_step sel) ds (ecr, None) = ret (ecr, None).
Proof.
  induction 1 as [| l ds Hl _ IH]; [reflexivity|].
  cbn [forEach]. now rewrite (group_step_idle _ _ Hl), bind_ret_l.
Qed.

(** One transaction: the header's payload with the entries of its lines,
    kept when there are at least two of them. *)
Lemma grouper_single pre h ds :
  Forall (fun l => porte_compte l = false) pre ->
  porte_compte h = true ->
  Forall (fun l => porte_compte l = false) ds ->
  grouper sel (pre ++ h :: ds)
  = ret (if (2 <=? List.length (flat_map entry_of ds))%nat
         then [with_data (nouvelle_ecriture sel h) (flat_map entry_of ds)]
         else []).
Proof.
  intros Hpre Hh Hds. unfold grouper.
  rewrite forEach_app, (forEach_idle _ _ Hpre), bind_ret_l. cbn [forEach].
  rewrite (group_step_first_header _ _ Hh), bind_ret_l.
  rewrite (forEach_details _ _ _ Hds), bind_ret_l. reflexivity.
Qed.

(** The scan either throws a [TypeError] or ends normally, and a pending
    transaction stays pending. *)
Lemma forEach_group_cases ls st :
  forEach (group_step sel) ls st = throw TypeError
  \/ exists st', forEach (group_step sel) ls st = ret st'
                 /\ (snd st <> None -> snd st' <> None).
Proof.
  revert st. induction ls as [| l ls IH]; intros [ecr cur].
  - right. eexists; split; [reflexivity | auto].
  - cbn [forEach]. destruct (porte_compte l) eqn:Hl.
    + destruct cur as [e |].
      * left. now rewrite (group_step_pending_header _ _ _ Hl).
      * rewrite (group_step_first_header _ _ Hl), bind_ret_l.
        destruct (IH (ecr, Some (nouvelle_ecriture sel l))) as [-> | (st' & -> & Hst')];
          [now left | right].
        exists st'. split; [reflexivity|]. intros _. apply Hst'. discriminate.
    + destruct cur as [e |].
      * rewrite (group_step_detail _ _ _ Hl), bind_ret_l.
        destruct (IH (ecr, Some (with_data e (Ecriture.lignes_data e ++ entry_of l))))
          as [-> | (st' & -> & Hst')]; [now left | right].
        exists st'. split; [reflexivity|]. intros _. apply Hst'. discriminate.
      * rewrite (group_step_idle _ _ Hl), bind_ret_l.
        destruct (IH (ecr, None)) as [-> | (st' & -> & Hst')]; [now left | right].
        exists st'. split; [reflexivity|]. intros H. now elim H.
Qed.

(** Grouping throws as soon as a second header with an account code is
    reached: the flush inside the loop reads [lignes] where the payload
    has [lignes_data]. *)
Lemma grouper_second_header_throws l1 h1 l2 h2 l3 :
  porte_compte h1 = true -> porte_compte h2 = true ->
  grouper sel (l1 ++ h1 :: l2 ++ h2 :: l3) = throw TypeError.
Proof.
  intros H1 H2. unfold grouper. rewrite forEach_app.
  destruct (forEach_group_cases l1 ([], None)) as [-> | ([ecr1 cur1] & -> & _)];
    [reflexivity|].
  rewrite bind_ret_l. cbn [forEach]. destruct cur1 as [e1 |].
  - now rewrite (group_step_pending_header _ _ _ H1).
  - rewrite (group_step_first_header _ _ H1), bind_ret_l, forEach_app.
    destruct (forEach_group_cases l2 (ecr1, Some (nouvelle_ecriture sel h1)))
      as [-> | ([ecr2 cur2] & -> & Hcur)]; [reflexivity|].
    rewrite bind_ret_l. cbn [forEach]. destruct cur2 as [e2 |].
    + now rewrite (group_step_pending_header _ _ _ H2).
    + exfalso. apply Hcur; [discriminate | reflexivity].
Qed.
End Grouping.

(** The threshold on one transaction: a header and one valid detail line
    give no payload, a header and two valid detail lines give one. *)
Example grouper_threshold :
  grouper Exemple.selection [Exemple.entete; Exemple.achat "100.00"] = ret []
  /\ grouper Exemple.selection
       [Exemple.entete; Exemple.achat "100.00"; Exemple.fournisseur "100.00"]
     = ret [Ecriture.mk 3 12 (Some 1%Z) (Some "2024-06-01") "Achat fournitures" ""
              [LigneData.mk 1 "Achat fournitures" 100 0 "";
               LigneData.mk 2 "Achat fournitures" 0 100 ""]].
Proof. split; vm_compute; reflexivity. Qed.

(** C2: submission grouping of two complete transactions (each a header
    with an account code and two valid detail lines, balanced).  The scan
    reaches the second header with the first transaction pending and throws
    a TypeError, so no payload list is produced and [validerEcriture] ends
    without a create call or a state update. *)
Theorem grouper_two_transactions_throw :
  let tx := [Exemple.entete; Exemple.achat "100.00"; Exemple.fournisseur "100.00"] in
  let s := mkState (tx ++ tx) 0 0 false in
  equilibre (lignes s) = true
  /\ grouper Exemple.selection (lignes s) = throw TypeError
  /\ validerEcriture s Exemple.selection Exemple.horloge (fun _ => Created)
     = throw TypeError.
Proof. cbv zeta. repeat split; vm_compute; reflexivity. Qed.

(** C10: a header line whose account code is empty is invisible to
    submission grouping: removing it from the sequence does not change the
    result, so it neither opens a transaction nor closes the pending one.
    In particular the lines that follow it are added to the transaction
    opened by the previous header with an account code, and the two visual
    groups are submitted as one payload. *)
Theorem accountless_header_is_merged (sel : Selection) (h : LigneEcriture) :
  is_header h = true ->
  compte h = "" ->
  (forall l1 l2, grouper sel (l1 ++ h :: l2) = grouper sel (l1 ++ l2))
  /\ (forall h1 ds1 ds2,
         porte_compte h1 = true ->
         Forall (fun l => is_header l = false) ds1 ->
         Forall (fun l => is_header l = false) ds2 ->
         grouper sel (h1 :: ds1 ++ h :: ds2)
         = ret (if (2 <=? List.length (flat_map entry_of ds1 ++ flat_map entry_of ds2))%nat
                then [with_data (nouvelle_ecriture sel h1)
                                (flat_map entry_of ds1 ++ flat_map entry_of ds2)]
                else [])).
Proof.
  intros Hh Hc.
  assert (Hp : porte_compte h = false)
    by (unfold porte_compte; rewrite Hc; apply andb_false_r).
  assert (He : entry_of h = [])
    by (unfold entry_of; rewrite Hc; now destruct (compteId h)).
  split.
  - intros l1 l2. now apply grouper_skip.
  - intros h1 ds1 ds2 H1 Hd1 Hd2.
    assert (Hd : forall ds, Forall (fun l => is_header l = false) ds ->
                            Forall (fun l => porte_compte l = false) ds).
    { intros ds. apply Forall_impl. intros l Hl. unfold porte_compte. now rewrite Hl. }
    change (h1 :: ds1 ++ h :: ds2) with ([] ++ h1 :: ds1 ++ h :: ds2).
    rewrite (grouper_single sel [] h1 (ds1 ++ h :: ds2) (Forall_nil _) H1).
    + rewrite flat_map_app. cbn [flat_map]. rewrite He. reflexivity.
    + apply Forall_app. split; [auto|]. constructor; auto.
Qed.

Lemma accountless_header_is_merged_witness :
  is_header Exemple.entete_sans_compte = true
  /\ compte Exemple.entete_sans_compte = ""
  /\ grouper Exemple.selection
       ([Exemple.entete; Exemple.achat "100.00"]
          ++ Exemple.entete_sans_compte :: [Exemple.fournisseur "100.00"])
     = grouper Exemple.selection
         ([Exemple.entete; Exemple.achat "100.00"] ++ [Exemple.fournisseur "100.00"]).
Proof.
  split; [reflexivity | split; [reflexivity |]].
  exact (proj1 (accountless_header_is_merged
                  Exemple.selection Exemple.entete_sans_compte eq_refl eq_refl) _ _).
Defined.

(** *** Successful submission *)

Lemma envoyer_all_created (create : Ecriture.t -> reply) (es : list Ecriture.t) :
  Forall (fun e => create e = Created) es ->
  envoyer create es = (map Create es, Normal None).
Proof.
  induction 1 as [| e es He _ IH]; [reflexivity|].
  cbn [envoyer map]. rewrite He, IH. reflexivity.
Qed.

(** After a fully successful submission the next render holds the lines of
    the render that submitted, followed by a fresh header and detail line:
    the reset [setLignes([])] is overwritten by [addNewEcriture], which
    spreads the [lignes] of its own render. *)
Lemma valider_success_keeps_lines (s : State) (sel : Selection) (c : Clock)
      (create : Ecriture.t -> reply) (es : list Ecriture.t) :
  JS.truthy (selectedJournal sel) = true ->
  JS.truthy (selectedPeriode sel) = true ->
  JS.ge (JS.Math_abs (totalDebit (lignes s) - totalCredit (lignes s))) 0.01 = false ->
  grouper sel (lignes s) = ret es ->
  Forall (fun e => create e = Created) es ->
  lignes (settle s (validerEcriture s sel c create)) = lignes s ++ newEcriture c.
Proof.
  intros HJ HP Heq Hg Hc. unfold validerEcriture.
  rewrite HJ, HP, Heq, Hg. cbn [negb orb]. rewrite bind_ret_l.
  rewrite (envoyer_all_created _ _ Hc).
  unfold settle. cbn [bind emit addNewEcriture fst app].
  cbn [fold_left]. rewrite fold_left_app.
  generalize (fold_left apply_update (map Create es)
                (apply_update s (SetSaving true))).
  intros s0. reflexivity.
Qed.

(** C4: a balanced session of one complete transaction, submitted with
    every create call succeeding.  The next render does not hold a single
    fresh transaction: the three submitted lines are still there, followed
    by the new blank header and detail line (five lines in all). *)
Theorem valider_success_does_not_reset :
  let s := mkState [Exemple.entete; Exemple.achat "100.00"; Exemple.fournisseur "100.00"]
                   2 6 false in
  let h := validerEcriture s Exemple.selection Exemple.horloge (fun _ => Created) in
  snd h = Normal tt
  /\ In (Alert (MsgSucces 1)) (fst h)
  /\ lignes (settle s h) = lignes s ++ newEcriture Exemple.horloge
  /\ List.length (lignes (settle s h)) = 5
  /\ lignes (settle s h) <> newEcriture Exemple.horloge.
Proof.
  cbv zeta. split; [vm_compute; reflexivity|].
  split; [vm_compute; tauto|].
  split; [vm_compute; reflexivity|].
  split; [vm_compute; reflexivity|].
  vm_compute. discriminate.
Qed.

(** *** Appending a line *)

Lemma scanToHeader_run (ds rest : list LigneEcriture) (i : nat) :
  Forall (fun l => is_header l = false) ds ->
  fin_ou_entete rest ->
  scanToHeader (ds ++ rest) i = i + List.length ds.
Proof.
  intros Hds Hrest. revert i. induction Hds as [| d ds Hd _ IH]; intros i.
  - cbn [app List.length]. rewrite Nat.add_0_r.
    destruct rest as [| h r]; [reflexivity|]. cbn in Hrest |- *. now rewrite Hrest.
  - cbn [app scanToHeader List.length]. rewrite Hd, IH. lia.
Qed.

Lemma skipn_past {A} (pre : list A) (x : A) (post : list A) :
  skipn (List.length pre + 1) (pre ++ x :: post) = post.
Proof.
  rewrite Nat.add_1_r. induction pre as [| y pre IH]; [reflexivity | exact IH].
Qed.

Lemma firstn_before {A} (pre post : list A) :
  firstn (List.length pre) (pre ++ post) = pre.
Proof.
  induction pre as [| y pre IH]; cbn; [now destruct post | now rewrite IH].
Qed.

Lemma skipn_before {A} (pre post : list A) :
  skipn (List.length pre) (pre ++ post) = post.
Proof.
  induction pre as [| y pre IH]; [reflexivity | exact IH].
Qed.

Lemma nth_error_middle {A} (pre : list A) (x : A) (post : list A) :
  nth_error (pre ++ x :: post) (List.length pre) = Some x.
Proof.
  induction pre as [| y pre IH]; [reflexivity | exact IH].
Qed.

(** The insertion point is the index of the next header line after the
    focused row, or the end of the sequence. *)
Lemma insertIndex_next_header (pre : list LigneEcriture) (cur : LigneEcriture)
      (ds rest : list LigneEcriture) :
  Forall (fun l => is_header l = false) ds ->
  fin_ou_entete rest ->
  insertIndex (pre ++ cur :: ds ++ rest) (List.length pre)
  = List.length (pre ++ cur :: ds).
Proof.
  intros Hds Hrest. unfold insertIndex.
  rewrite skipn_past, (scanToHeader_run _ _ _ Hds Hrest).
  rewrite length_app. cbn [List.length]. lia.
Qed.

(** The new line goes after the last line of the focused row's
    transaction, with the focused line's description. *)
Lemma addLigne_inserts (s : State) (c : Clock) (pre : list LigneEcriture)
      (cur : LigneEcriture) (ds rest : list LigneEcriture) :
  lignes s = pre ++ cur :: ds ++ rest ->
  currentRow s = List.length pre ->
  Forall (fun l => is_header l = false) ds ->
  fin_ou_entete rest ->
  addLigneToCurrentEcriture s c
  = emit (SetLignes (pre ++ cur :: ds ++ newLigne (now0 c) (libelle cur) :: rest)).
Proof.
  intros Hl Hr Hds Hrest. unfold addLigneToCurrentEcriture.
  rewrite Hl, Hr, nth_error_middle, (insertIndex_next_header _ _ _ _ Hds Hrest).
  unfold splice_insert.
  replace (pre ++ cur :: ds ++ rest) with ((pre ++ cur :: ds) ++ rest)
    by (now rewrite <- app_assoc).
  rewrite firstn_before, skipn_before, <- app_assoc. reflexivity.
Qed.

(** No focused line: the handler throws before queueing anything. *)
Lemma addLigne_out_of_range (s : State) (c : Clock) :
  List.length (lignes s) <= currentRow s ->
  addLigneToCurrentEcriture s c = throw TypeError.
Proof.
  intros H. unfold addLigneToCurrentEcriture.
  apply nth_error_None in H. now rewrite H.
Qed.

(** C6: appending a line while the focus is on a detail line whose
    description ("Transport") differs from its header's ("Achat
    fournitures").  The line is inserted at the end of the transaction, and
    its description is the focused line's, not the header's. *)
Theorem addLigne_copies_focused_description :
  let d := Exemple.ligne "t1" "601" 1 "Transport" "150.00" "" in
  let s := mkState [Exemple.entete; d] 1 4 false in
  let s' := settle s (addLigneToCurrentEcriture s Exemple.horloge) in
  lignes s' = [Exemple.entete; d; newLigne "1717200000000" "Transport"]
  /\ option_map libelle (nth_error (lignes s') 2) = Some "Transport"
  /\ libelle Exemple.entete = "Achat fournitures".
Proof. cbv zeta. repeat split. Qed.

(** *** Enter *)

Lemma has_next_spec (ls : list LigneEcriture) (row : nat) :
  has_next ls row = (row + 1 <? List.length ls)%nat.
Proof.
  unfold has_next.
  destruct (Z.ltb_spec (Z.of_nat row) (Z.of_nat (List.length ls) - 1));
    destruct (Nat.ltb_spec (row + 1) (List.length ls)); auto; lia.
Qed.

(** What Enter does in the cell [(row, col)] that has the focus.
    When a next row exists the focus moves to [(row + 1, col)]: the row
    changes and the column is kept.  When [row] is the last row, a detail
    line carrying the focused line's description is appended to the
    sequence and the focus moves to it at column 0.  Nothing else changes. *)
Theorem enter_moves_down (s : State) (c : Clock) (shiftKey : bool)
        (row col : nat) (cur : LigneEcriture) :
  currentRow s = row ->
  currentCol s = col ->
  nth_error (lignes s) row = Some cur ->
  let s' := settle s (handleKeyDown s c Enter shiftKey row col) in
  (row + 1 < List.length (lignes s) ->
   s' = mkState (lignes s) (row + 1) col (saving s))
  /\ (row + 1 = List.length (lignes s) ->
      s' = mkState (lignes s ++ [newLigne (now0 c) (libelle cur)]) (row + 1) 0
                   (saving s)).
Proof.
  intros Hr Hc Hcur. cbv zeta. unfold handleKeyDown. rewrite has_next_spec. split.
  - intros Hlt. apply Nat.ltb_lt in Hlt. rewrite Hlt.
    unfold settle. cbn. now rewrite Hc.
  - intros Hlast.
    replace (row + 1 <? List.length (lignes s))%nat with false
      by (symmetry; apply Nat.ltb_ge; lia).
    destruct (nth_error_split _ _ Hcur) as (pre & post & Hl & Hpre).
    assert (post = []) as ->.
    { rewrite Hl, length_app in Hlast. cbn in Hlast.
      destruct post; [reflexivity | cbn in Hlast; lia]. }
    rewrite (addLigne_inserts s c pre cur [] [] Hl (eq_trans Hr (eq_sym Hpre))
               (Forall_nil _) I).
    unfold settle. cbn. rewrite Hl, <- app_assoc. reflexivity.
Qed.

Lemma enter_moves_down_witness :
  let s := mkState [Exemple.entete; Exemple.achat ""] 0 2 false in
  currentRow s = 0
  /\ currentCol s = 2
  /\ nth_error (lignes s) 0 = Some Exemple.entete
  /\ settle s (handleKeyDown s Exemple.horloge Enter false 0 2)
     = mkState [Exemple.entete; Exemple.achat ""] 1 2 false.
Proof.
  cbv zeta. repeat (split; [reflexivity|]).
  refine (proj1 (enter_moves_down
                   (mkState [Exemple.entete; Exemple.achat ""] 0 2 false)
                   Exemple.horloge false 0 2 Exemple.entete
                   eq_refl eq_refl eq_refl) _).
  cbn. lia.
Defined.

(** Enter pressed outside the first
    column on a row that has a successor: from [(0, 2)] the focus goes to
    [(1, 2)], not to [(1, 0)]. *)
Lemma enter_keeps_column_counterexample :
  let s := mkState [Exemple.entete; Exemple.achat ""] 0 2 false in
  let s' := settle s (handleKeyDown s Exemple.horloge Enter false 0 2) in
  0 + 1 < List.length (lignes s)
  /\ (currentRow s', currentCol s') = (1, 2)
  /\ (currentRow s', currentCol s') <> (0 + 1, 0).
Proof.
  cbv zeta. split; [cbn; lia|]. split; [reflexivity | discriminate].
Qed.

(** C5: Enter pressed in the focused cell (0, 2) of a grid of two lines, so
    a next row exists.  The focus goes to (1, 2): the row advances and the
    column is kept, not reset to 0.  The two sibling paths do reset it: Tab
    in the last column of the same row gives (1, 0), and so does Enter on
    the last row, after appending a line. *)
Theorem enter_does_not_reset_column :
  let s := mkState [Exemple.entete; Exemple.achat ""] 0 2 false in
  let s' := settle s (handleKeyDown s Exemple.horloge Enter false 0 2) in
  let t := mkState [Exemple.entete; Exemple.achat ""] 0 6 false in
  let t' := settle t (handleKeyDown t Exemple.horloge Tab false 0 6) in
  let u := mkState [Exemple.entete; Exemple.achat ""] 1 2 false in
  let u' := settle u (handleKeyDown u Exemple.horloge Enter false 1 2) in
  has_next (lignes s) 0 = true
  /\ s' = mkState [Exemple.entete; Exemple.achat ""] 1 2 false
  /\ (currentRow s', currentCol s') <> (1, 0)
  /\ (currentRow t', currentCol t') = (1, 0)
  /\ (currentRow u', currentCol u') = (2, 0).
Proof.
  cbv zeta. split; [reflexivity|]. split; [reflexivity|].
  split; [discriminate|]. split; reflexivity.
Qed.

(** *** Description propagation *)

Lemma not_truthy_empty (t : string) : negb (JS.truthy t) = (t =? "")%string.
Proof. now destruct t. Qed.

Lemma propagate_run (old value : string) (ds rest : list LigneEcriture) :
  Forall (fun l => is_header l = false) ds ->
  fin_ou_entete rest ->
  propagate old value (ds ++ rest)
  = map (fun d => if suit_entete old d then set_libelle value d else d) ds ++ rest.
Proof.
  intros Hds Hrest. induction Hds as [| d ds Hd _ IH].
  - destruct rest as [| h r]; [reflexivity|]. cbn in Hrest |- *. now rewrite Hrest.
  - cbn [app propagate map]. rewrite Hd, IH, not_truthy_empty. reflexivity.
Qed.

(** Writing the description leaves every other property of a line alone. *)
Lemma set_libelle_other_fields (v : string) (l : LigneEcriture) :
  (id (set_libelle v l), tempId (set_libelle v l), date (set_libelle v l),
   compte (set_libelle v l), compteId (set_libelle v l), tiers (set_libelle v l),
   debit (set_libelle v l), credit (set_libelle v l), piece (set_libelle v l),
   isNew (set_libelle v l), isHeader (set_libelle v l))
  = (id l, tempId l, date l, compte l, compteId l, tiers l, debit l, credit l,
     piece l, isNew l, isHeader l)
  /\ libelle (set_libelle v l) = v.
Proof. split; reflexivity. Qed.

(** The sequence queued by an edit of a header's description, through the
    assignments of [updateCell]. *)
Lemma updateCell_header_emit (s : State) (pre : list LigneEcriture)
      (h : LigneEcriture) (ds rest : list LigneEcriture) (V : string) :
  lignes s = pre ++ h :: ds ++ rest ->
  is_header h = true ->
  Forall (fun l => is_header l = false) ds ->
  fin_ou_entete rest ->
  updateCell s (List.length pre) F_libelle V
  = emit (SetLignes
            (pre ++ set_libelle V h
                 :: map (fun d => if suit_entete (libelle h) d
                                  then set_libelle V d else d) ds
                 ++ rest)).
Proof.
  intros Hl Hh Hds Hrest. unfold updateCell, updateCell_lignes.
  rewrite Hl, nth_error_middle, firstn_before, skipn_past, Hh.
  cbn [field_eqb andb set_field]. now rewrite (propagate_run _ _ _ _ Hds Hrest).
Qed.

Lemma suit_entete_spec (old : string) (d : LigneEcriture) :
  suit_entete old d = true <-> libelle d = "" \/ libelle d = old.
Proof.
  unfold suit_entete. rewrite orb_true_iff, !String.eqb_eq. reflexivity.
Qed.

(** C8: the sequence is [pre ++ h :: ds ++ rest], where [h] is a header
    line, [ds] are the detail lines of its transaction and [rest] is empty
    or starts with the next header.  Updating the description of [h] to [V]
    queues exactly one new sequence [pre ++ h' :: ds' ++ rest], in which
    [h'] has description [V] and every other property of [h]; line by line,
    a detail line whose description was empty or equal to the previous
    description of [h] has description [V] and its other properties
    unchanged, and a detail line with another description is unchanged;
    [pre] and [rest], the lines of the other transactions, are as they
    were. *)
Theorem updateCell_propagates (s : State) (pre : list LigneEcriture)
        (h : LigneEcriture) (ds rest : list LigneEcriture) (V : string) :
  lignes s = pre ++ h :: ds ++ rest ->
  is_header h = true ->
  Forall (fun l => is_header l = false) ds ->
  fin_ou_entete rest ->
  exists h' ds',
    updateCell s (List.length pre) F_libelle V
    = emit (SetLignes (pre ++ h' :: ds' ++ rest))
    /\ libelle h' = V
    /\ (id h', tempId h', date h', compte h', compteId h', tiers h', debit h',
        credit h', piece h', isNew h', isHeader h')
       = (id h, tempId h, date h, compte h, compteId h, tiers h, debit h,
          credit h, piece h, isNew h, isHeader h)
    /\ Forall2
         (fun d d' =>
            (libelle d = "" \/ libelle d = libelle h ->
             libelle d' = V
             /\ (id d', tempId d', date d', compte d', compteId d', tiers d',
                 debit d', credit d', piece d', isNew d', isHeader d')
                = (id d, tempId d, date d, compte d, compteId d, tiers d,
                   debit d, credit d, piece d, isNew d, isHeader d))
            /\ (libelle d <> "" -> libelle d <> libelle h -> d' = d))
         ds ds'.
Proof.
  intros Hl Hh Hds Hrest.
  exists (set_libelle V h),
         (map (fun d => if suit_entete (libelle h) d then set_libelle V d else d) ds).
  split; [now apply updateCell_header_emit|].
  split; [reflexivity|]. split; [reflexivity|].
  clear. induction ds as [| d ds IH]; cbn [map]; constructor; [|exact IH].
  destruct (suit_entete (libelle h) d) eqn:Hs.
  - apply suit_entete_spec in Hs. split.
    + intros _. split; reflexivity.
    + intros H1 H2. destruct Hs; contradiction.
  - split.
    + intros H. apply suit_entete_spec in H. congruence.
    + reflexivity.
Qed.

Lemma updateCell_propagates_witness :
  lignes Exemple.etat_libelles
  = [] ++ Exemple.entete :: Exemple.details_libelles ++ Exemple.suite_libelles
  /\ is_header Exemple.entete = true
  /\ Forall (fun l => is_header l = false) Exemple.details_libelles
  /\ fin_ou_entete Exemple.suite_libelles
  /\ exists h' ds',
       updateCell Exemple.etat_libelles 0 F_libelle "Achat papier"
       = emit (SetLignes ([] ++ h' :: ds' ++ Exemple.suite_libelles))
       /\ libelle h' = "Achat papier".
Proof.
  assert (Hds : Forall (fun l => is_header l = false) Exemple.details_libelles)
    by (repeat constructor).
  split; [reflexivity|]. split; [reflexivity|]. split; [exact Hds|].
  split; [reflexivity|].
  destruct (updateCell_propagates Exemple.etat_libelles [] Exemple.entete
              Exemple.details_libelles Exemple.suite_libelles
              "Achat papier" eq_refl eq_refl Hds eq_refl)
    as (h' & ds' & E & Hlib & _).
  exists h', ds'. split; [exact E | exact Hlib].
Defined.

(** The same edit, line by line: the header and the two detail lines that
    follow it get the new description, the line with a description of its
    own keeps it, and the next transaction is untouched. *)
Example updateCell_propagates_session :
  lignes (settle Exemple.etat_libelles
            (updateCell Exemple.etat_libelles 0 F_libelle "Achat papier"))
  = [ mkLigne None "t0" (Some "2024-06-01") "601" None "" "Achat papier" "" ""
              (Some "") (Some true) (Some true);
      mkLigne None "t1" None "601" (Some 1%Z) "" "Achat papier" "150.00" ""
              (Some "") (Some true) None;
      mkLigne None "t4" None "445" (Some 3%Z) "" "Achat papier" "" ""
              (Some "") (Some true) None;
      mkLigne None "t5" None "401" (Some 2%Z) "" "Transport" "" "150.00"
              (Some "") (Some true) None;
      mkLigne None "t3" (Some "2024-06-02") "" None "" "Autre" "" ""
              (Some "") (Some true) (Some true);
      mkLigne None "t1" None "601" (Some 1%Z) "" "Achat fournitures" "" ""
              (Some "") (Some true) None ].
Proof. reflexivity. Qed.

(** *** The header invariant *)

Lemma scanToHeader_ge (rest : list LigneEcriture) (i : nat) :
  i <= scanToHeader rest i.
Proof.
  revert i. induction rest as [| l rest IH]; intros i; cbn; [lia|].
  destruct (is_header l); [lia|]. specialize (IH (S i)). lia.
Qed.

Lemma insertIndex_positive (ls : list LigneEcriture) (row : nat) :
  exists k, insertIndex ls row = S k.
Proof.
  unfold insertIndex.
  pose proof (scanToHeader_ge (skipn (row + 1) ls) (row + 1)) as H.
  destruct (scanToHeader (skipn (row + 1) ls) (row + 1)) as [| k]; [lia | eauto].
Qed.

Lemma premiere_app (ls more : list LigneEcriture) :
  premiere_est_entete ls -> premiere_est_entete (ls ++ more).
Proof.
  intros (h & rest & -> & Hh). exists h, (rest ++ more). now split.
Qed.

Lemma premiere_splice (ls : list LigneEcriture) (k : nat) (x : LigneEcriture) :
  premiere_est_entete ls -> premiere_est_entete (splice_insert ls (S k) x).
Proof.
  intros (h & rest & -> & Hh). exists h, (splice_insert rest k x). now split.
Qed.

Lemma step_keeps_first_header (s : State) (o : operation) :
  premiere_est_entete (lignes s) -> premiere_est_entete (lignes (step s o)).
Proof.
  intros H. destruct o as [c | c | row col]; cbn [step].
  - unfold addNewEcriture. rewrite settle_emit_lignes. now apply premiere_app.
  - unfold addLigneToCurrentEcriture.
    destruct (nth_error (lignes s) (currentRow s)) as [cur |]; [|exact H].
    rewrite settle_emit_lignes.
    destruct (insertIndex_positive (lignes s) (currentRow s)) as (k & ->).
    now apply premiere_splice.
  - exact H.
Qed.

Lemma run_keeps_first_header (os : list operation) (s : State) :
  premiere_est_entete (lignes s) -> premiere_est_entete (lignes (run s os)).
Proof.
  revert s. induction os as [| o os IH]; intros s H; [exact H|].
  apply IH. now apply step_keeps_first_header.
Qed.

Lemma initial_first_header (c : Clock) : premiere_est_entete (lignes (initial c)).
Proof. eexists _, _. split; reflexivity. Qed.

(** The backward scan finds the nearest header below [n] as soon as there
    is one. *)
Lemma enteteAvant_nearest (ls : list LigneEcriture) (n : nat) :
  n <= List.length ls ->
  (exists k h, k < n /\ nth_error ls k = Some h /\ is_header h = true) ->
  exists j, enteteAvant ls n = Some j
            /\ j < n
            /\ (exists h, nth_error ls j = Some h /\ is_header h = true)
            /\ (forall k l, j < k -> k < n -> nth_error ls k = Some l ->
                            is_header l = false).
Proof.
  induction n as [| n IH]; intros Hn (k & h & Hk & Hh & Hhh); [lia|].
  cbn [enteteAvant]. destruct (nth_error ls n) as [l |] eqn:E.
  - destruct (is_header l) eqn:Hl.
    + exists n. split; [reflexivity|]. split; [lia|]. split; [eauto|]. intros; lia.
    + assert (Hkn : k < n).
      { destruct (Nat.eq_dec k n) as [-> | Hne]; [congruence | lia]. }
      destruct (IH ltac:(lia) (ex_intro _ k (ex_intro _ h (conj Hkn (conj Hh Hhh)))))
        as (j & Hj & Hjn & Hjh & Hbetween).
      exists j. split; [exact Hj|]. split; [lia|]. split; [exact Hjh|].
      intros k' l' Hjk Hkn' Hk'. destruct (Nat.eq_dec k' n) as [-> | Hne].
      * congruence.
      * apply (Hbetween k'); auto; lia.
  - apply nth_error_None in E. lia.
Qed.

Lemma first_header_owns (ls : list LigneEcriture) :
  premiere_est_entete ls ->
  forall i l, nth_error ls i = Some l -> is_header l = false ->
              exists j, enteteAvant ls i = Some j /\ appartient ls i j.
Proof.
  intros (h & rest & -> & Hh) i l Hi Hl.
  assert (Hpos : 0 < i).
  { destruct i; [|lia]. cbn in Hi. congruence. }
  assert (Hlen : i < List.length (h :: rest))
    by (apply nth_error_Some; congruence).
  destruct (enteteAvant_nearest (h :: rest) i ltac:(lia)
              (ex_intro _ 0 (ex_intro _ h (conj Hpos (conj eq_refl Hh)))))
    as (j & Hj & Hji & Hjh & Hbetween).
  exists j. split; [exact Hj|]. split; [exact Hji|]. split; [exact Hjh|].
  intros k l' Hjk Hki Hk. destruct (Nat.eq_dec k i) as [-> | Hne].
  - congruence.
  - apply (Hbetween k); auto; lia.
Qed.

(** C9: from the initial session state, after any sequence of "new
    transaction", "append line" and focus changes, the first line of the
    sequence is a header line, and every non-header line has a nearest
    preceding header line, to whose transaction it belongs. *)
Theorem header_invariant (c : Clock) (os : list operation) :
  let ls := lignes (run (initial c) os) in
  premiere_est_entete ls
  /\ forall i l, nth_error ls i = Some l -> is_header l = false ->
                 exists j, enteteAvant ls i = Some j /\ appartient ls i j.
Proof.
  cbv zeta.
  assert (H : premiere_est_entete (lignes (run (initial c) os)))
    by (apply run_keeps_first_header, initial_first_header).
  split; [exact H | now apply first_header_owns].
Qed.

(** A session on which the invariant can be read off. *)
Example header_invariant_session :
  let os := [Focus 1 2; AjouterLigne Exemple.horloge;
             NouvelleEcriture Exemple.horloge; Focus 0 4;
             AjouterLigne Exemple.horloge; Focus 9 0; AjouterLigne Exemple.horloge] in
  let ls := lignes (run (initial Exemple.horloge) os) in
  map is_header ls = [true; false; false; false; true; false]
  /\ map (enteteAvant ls) [1; 2; 3; 5] = [Some 0; Some 0; Some 0; Some 4].
Proof. cbv zeta. split; reflexivity. Qed.

(** *** Account lookup *)








(** The prefix test is case-sensitive, and the first match in list order
    wins even when a later code is shorter or smaller. *)
Example compte_search_first_match :
  JS.startsWith "ab1" "AB" = false
  /\ find (fun c => JS.startsWith (Compte.code c) "6")
          [Compte.mk 7 "6011" "" ""; Compte.mk 8 "601" "" ""; Compte.mk 9 "60" "" ""]
     = Some (Compte.mk 7 "6011" "" "").
Proof. split; reflexivity. Qed.

(** ** Further properties of the page *)

(** *** Keyboard navigation *)

Lemma length_splice_insert {A} (a : list A) (i : nat) (x : A) :
  List.length (splice_insert a i x) = S (List.length a).
Proof.
  unfold splice_insert. rewrite length_app. cbn [List.length].
  rewrite Nat.add_succ_r. f_equal.
  rewrite <- length_app. now rewrite firstn_skipn.
Qed.

Lemma addLigne_last_row (s : State) (c : Clock) (cur : LigneEcriture) :
  nth_error (lignes s) (currentRow s) = Some cur ->
  currentRow s + 1 = List.length (lignes s) ->
  addLigneToCurrentEcriture s c
  = emit (SetLignes (lignes s ++ [newLigne (now0 c) (libelle cur)])).
Proof.
  intros Hcur Hlast.
  destruct (nth_error_split _ _ Hcur) as (pre & post & Hl & Hpre).
  assert (post = []) as ->.
  { rewrite Hl, length_app in Hlast. cbn in Hlast.
    destruct post; [reflexivity | cbn in Hlast; lia]. }
  rewrite (addLigne_inserts s c pre cur [] [] Hl (eq_sym Hpre) (Forall_nil _) I).
  rewrite Hl, <- app_assoc. reflexivity.
Qed.

(** X1: Tab without Shift in the focused cell [(row, col)].  Before the
    last column the focus moves one column right; in the last column it
    moves to the first column of the next row when there is one; in the
    last cell of the grid a detail line with the focused line's description
    is appended first.  No other part of the state changes. *)
Theorem tab_forward (s : State) (c : Clock) (row col : nat) (cur : LigneEcriture) :
  currentRow s = row ->
  currentCol s = col ->
  nth_error (lignes s) row = Some cur ->
  let s' := settle s (handleKeyDown s c Tab false row col) in
  (col < 6 -> s' = mkState (lignes s) row (col + 1) (saving s))
  /\ (6 <= col -> row + 1 < List.length (lignes s) ->
      s' = mkState (lignes s) (row + 1) 0 (saving s))
  /\ (6 <= col -> row + 1 = List.length (lignes s) ->
      s' = mkState (lignes s ++ [newLigne (now0 c) (libelle cur)]) (row + 1) 0
                   (saving s)).
Proof.
  intros Hr Hc Hcur. cbv zeta. unfold handleKeyDown. rewrite has_next_spec.
  change (totalCols - 1) with 6. split; [|split].
  - intros Hlt. apply Nat.ltb_lt in Hlt. rewrite Hlt. unfold settle. cbn.
    now rewrite Hr.
  - intros Hge Hnext. apply Nat.ltb_ge in Hge. rewrite Hge.
    apply Nat.ltb_lt in Hnext. rewrite Hnext. reflexivity.
  - intros Hge Hlast. apply Nat.ltb_ge in Hge. rewrite Hge.
    replace (row + 1 <? List.length (lignes s))%nat with false
      by (symmetry; apply Nat.ltb_ge; lia).
    subst row. rewrite (addLigne_last_row s c cur Hcur Hlast). reflexivity.
Qed.

Lemma tab_forward_witness :
  let s := mkState [Exemple.entete; Exemple.achat ""] 1 6 false in
  currentRow s = 1 /\ currentCol s = 6
  /\ nth_error (lignes s) 1 = Some (Exemple.achat "")
  /\ settle s (handleKeyDown s Exemple.horloge Tab false 1 6)
     = mkState [Exemple.entete; Exemple.achat "";
                newLigne "1717200000000" "Achat fournitures"] 2 0 false.
Proof.
  cbv zeta. repeat (split; [reflexivity|]).
  refine (proj2 (proj2 (tab_forward
                          (mkState [Exemple.entete; Exemple.achat ""] 1 6 false)
                          Exemple.horloge 1 6 (Exemple.achat "")
                          eq_refl eq_refl eq_refl)) _ _).
  - cbn. lia.
  - reflexivity.
Defined.

Lemma settle_length_equilibrer (s : State) :
  List.length (lignes (settle s (equilibrerEcriture s))) = List.length (lignes s).
Proof. exact (proj1 (equilibrer_one_line s)). Qed.

Lemma settle_equilibrer_focus (s : State) :
  currentRow (settle s (equilibrerEcriture s)) = currentRow s
  /\ currentCol (settle s (equilibrerEcriture s)) = currentCol s.
Proof.
  unfold equilibrerEcriture. destruct (JS.lt _ _); [split; reflexivity|].
  destruct (lastIndex (lignes s)); [|split; reflexivity].
  split; reflexivity.
Qed.

Lemma settle_addLigne_then_focus (s : State) (c : Clock) (row : nat) :
  currentRow s < List.length (lignes s) ->
  let s' := settle s (addLigneToCurrentEcriture s c ;;
                      emit (SetCurrentRow (row + 1)) ;; emit (SetCurrentCol 0)) in
  List.length (lignes s') = S (List.length (lignes s))
  /\ currentRow s' = row + 1 /\ currentCol s' = 0.
Proof.
  intros Hrow. cbv zeta. unfold addLigneToCurrentEcriture.
  destruct (nth_error (lignes s) (currentRow s)) as [cur |] eqn:E.
  - unfold settle. cbn. rewrite length_splice_insert. auto.
  - apply nth_error_None in E. lia.
Qed.

(** X3: the focus never leaves the grid.  When the focused cell is a cell
    of the grid (its row is the index of a line and its column is below 7),
    then after any key pressed in that cell, with or without Shift, the
    focused cell is again a cell of the grid. *)
Theorem focus_stays_in_grid (s : State) (c : Clock) (k : key) (shiftKey : bool) :
  currentRow s < List.length (lignes s) ->
  currentCol s < 7 ->
  let s' := settle s (handleKeyDown s c k shiftKey (currentRow s) (currentCol s)) in
  currentRow s' < List.length (lignes s') /\ currentCol s' < 7.
Proof.
  intros Hrow Hcol. cbv zeta.
  pose proof (settle_addLigne_then_focus s c (currentRow s) Hrow) as Hadd.
  cbv zeta in Hadd.
  destruct k; unfold handleKeyDown; rewrite ?has_next_spec;
    change (totalCols - 1) with 6.
  - (* Tab *)
    destruct shiftKey.
    + destruct (Nat.ltb_spec 0 (currentCol s)); [unfold settle; cbn; lia|].
      destruct (Nat.ltb_spec 0 (currentRow s)); unfold settle; cbn; lia.
    + destruct (Nat.ltb_spec (currentCol s) 6); [unfold settle; cbn; lia|].
      destruct (Nat.ltb_spec (currentRow s + 1) (List.length (lignes s)));
        [unfold settle; cbn; lia|].
      destruct Hadd as (Hl & Hr & Hc). rewrite Hl, Hr, Hc. lia.
  - (* Enter *)
    destruct (Nat.ltb_spec (currentRow s + 1) (List.length (lignes s)));
      [unfold settle; cbn; lia|].
    destruct Hadd as (Hl & Hr & Hc). rewrite Hl, Hr, Hc. lia.
  - (* ArrowUp *)
    destruct (Nat.ltb_spec 0 (currentRow s)); unfold settle; cbn; lia.
  - (* ArrowDown *)
    destruct (Nat.ltb_spec (currentRow s + 1) (List.length (lignes s)));
      unfold settle; cbn; lia.
  - (* F2 *)
    unfold settle, addNewEcriture. cbn. rewrite length_app. cbn. lia.
  - (* F5 *)
    rewrite settle_length_equilibrer.
    destruct (settle_equilibrer_focus s) as [-> ->]. lia.
  - (* other keys *)
    unfold settle. cbn. lia.
Qed.

Lemma focus_stays_in_grid_witness :
  let s := mkState [Exemple.entete; Exemple.achat ""] 1 6 false in
  let s' := settle s (handleKeyDown s Exemple.horloge Enter false 1 6) in
  currentRow s < List.length (lignes s) /\ currentCol s < 7
  /\ currentRow s' < List.length (lignes s') /\ currentCol s' < 7.
Proof.
  cbv zeta. split; [cbn; lia|]. split; [cbn; lia|].
  refine (focus_stays_in_grid (mkState [Exemple.entete; Exemple.achat ""] 1 6 false)
            Exemple.horloge Enter false _ _); cbn; lia.
Defined.

(** X4: what a key can do to the line sequence.  Apart from F2, F5, and
    Enter or Tab (without Shift, in the last column) pressed on a row
    without successor, no key changes the sequence of lines. *)
Theorem keys_that_change_lines (s : State) (c : Clock) (k : key) (shiftKey : bool)
        (row col : nat) :
  k = F2 \/ k = F5
  \/ ((k = Enter \/ (k = Tab /\ shiftKey = false /\ 6 <= col))
      /\ List.length (lignes s) <= row + 1)
  \/ lignes (settle s (handleKeyDown s c k shiftKey row col)) = lignes s.
Proof.
  destruct k; [| | | | now left | now (right; left) |];
    unfold handleKeyDown; rewrite ?has_next_spec;
    change (totalCols - 1) with 6.
  - destruct shiftKey.
    + do 3 right. destruct (0 <? col)%nat; [reflexivity|].
      destruct (0 <? row)%nat; reflexivity.
    + destruct (Nat.ltb_spec col 6); [do 3 right; reflexivity|].
      destruct (Nat.ltb_spec (row + 1) (List.length (lignes s)));
        [do 3 right; reflexivity|].
      right; right; left. auto.
  - destruct (Nat.ltb_spec (row + 1) (List.length (lignes s)));
      [do 3 right; reflexivity|].
    right; right; left. auto.
  - do 3 right. destruct (0 <? row)%nat; reflexivity.
  - do 3 right. destruct (row + 1 <? List.length (lignes s))%nat; reflexivity.
  - do 3 right. reflexivity.
Qed.

(** *** Validation *)

Lemma fold_creates (es : list Ecriture.t) (s : State) :
  fold_left apply_update (map Create es) s = s.
Proof.
  induction es as [| e es IH]; [reflexivity|]. cbn. rewrite IH. now destruct s.
Qed.

Lemma grouper_cases (sel : Selection) (ls : list LigneEcriture) :
  grouper sel ls = throw TypeError \/ exists es, grouper sel ls = ret es.
Proof.
  unfold grouper.
  destruct (forEach_group_cases sel ls ([], None)) as [-> | (st & -> & _)].
  - now left.
  - right. exists (flush_last st). now rewrite bind_ret_l.
Qed.

(** What the sending loop does: the payloads are sent in order up to the
    first one the service rejects, whose error ends the loop; without a
    rejection all of them are sent. *)
Lemma envoyer_cases (create : Ecriture.t -> reply) (es : list Ecriture.t) :
  (Forall (fun e => create e = Created) es
   /\ envoyer create es = (map Create es, Normal None))
  \/ (exists pre e post t,
         es = pre ++ e :: post
         /\ Forall (fun e => create e = Created) pre
         /\ create e = Rejected t
         /\ envoyer create es = (map Create (pre ++ [e]), Normal (Some t))).
Proof.
  induction es as [| e es IH].
  - left. split; [constructor | reflexivity].
  - cbn [envoyer]. destruct (create e) as [| t] eqn:He.
    + destruct IH as [[Hall ->] | (pre & e' & post & t & -> & Hpre & He' & ->)].
      * left. split; [now constructor | reflexivity].
      * right. exists (e :: pre), e', post, t.
        repeat split; auto.
    + right. exists [], e, es, t. repeat split; auto.
Qed.

Lemma rendus_creates (s : State) (es : list Ecriture.t) (us : list update) :
  rendus_depuis s (map Create es ++ us)
  = repeat s (List.length es) ++ rendus_depuis s us.
Proof.
  induction es as [| e es IH]; [reflexivity|]. cbn. now rewrite IH.
Qed.

(** X5: a submission the service turns down.  When the guards pass,
    grouping yields its one payload [e] and the service rejects it with
    error text [t]: the handler switches saving on, sends [e], raises one
    alert, with the error text or with the fallback message when the text
    is missing or empty, and switches saving off.  The page shows saving on
    while the call is pending and saving off afterwards; the lines and the
    focus are what they were throughout. *)
Theorem valider_rejection (s : State) (sel : Selection) (c : Clock)
        (create : Ecriture.t -> reply) (e : Ecriture.t) (t : option string) :
  JS.truthy (selectedJournal sel) = true ->
  JS.truthy (selectedPeriode sel) = true ->
  JS.ge (JS.Math_abs (totalDebit (lignes s) - totalCredit (lignes s))) 0.01 = false ->
  grouper sel (lignes s) = ret [e] ->
  create e = Rejected t ->
  validerEcriture s sel c create
  = ([SetSaving true; Create e;
      Alert (MsgEchec (match t with
                       | Some (String a r) => Some (String a r)
                       | _ => None
                       end));
      SetSaving false], Normal tt)
  /\ rendus s (validerEcriture s sel c create)
     = [mkState (lignes s) (currentRow s) (currentCol s) true;
        mkState (lignes s) (currentRow s) (currentCol s) false].
Proof.
  intros HJ HP Hg Hgr He.
  assert (E : validerEcriture s sel c create
              = ([SetSaving true; Create e;
                  Alert (MsgEchec (match t with
                                   | Some (String a r) => Some (String a r)
                                   | _ => None
                                   end));
                  SetSaving false], Normal tt)).
  { unfold validerEcriture. rewrite HJ, HP, Hg, Hgr. cbn [negb orb].
    rewrite bind_ret_l. cbn [envoyer]. rewrite He.
    destruct t as [[| a r] |]; reflexivity. }
  split; [exact E|]. unfold rendus. rewrite E. reflexivity.
Qed.

Lemma valider_rejection_witness :
  let s := mkState [Exemple.entete; Exemple.achat "100.00"; Exemple.fournisseur "100.00"]
                   2 6 false in
  JS.truthy (selectedJournal Exemple.selection) = true
  /\ JS.truthy (selectedPeriode Exemple.selection) = true
  /\ grouper Exemple.selection (lignes s) = ret [Exemple.payload]
  /\ rendus s (validerEcriture s Exemple.selection Exemple.horloge
                 (fun _ => Rejected (Some "")))
     = [mkState (lignes s) 2 6 true; mkState (lignes s) 2 6 false]
  /\ In (Alert (MsgEchec None))
        (fst (validerEcriture s Exemple.selection Exemple.horloge
                (fun _ => Rejected (Some "")))).
Proof.
  cbv zeta. split; [reflexivity|]. split; [reflexivity|].
  split; [vm_compute; reflexivity|].
  assert (H := valider_rejection
                 (mkState [Exemple.entete; Exemple.achat "100.00";
                           Exemple.fournisseur "100.00"] 2 6 false)
                 Exemple.selection Exemple.horloge
                 (fun _ => Rejected (Some ""))
                 Exemple.payload (Some "") eq_refl eq_refl).
  destruct H as [E R]; [vm_compute; reflexivity | vm_compute; reflexivity
                        | reflexivity |].
  split; [exact R|]. rewrite E. cbn. tauto.
Defined.

(** X6: what a click on "Valider" can do to the state.  Every state the
    page shows, while a create call is pending or once the handler is done,
    has the focus of the render that was clicked; while a call is pending
    the lines are unchanged and the saving flag is on; if saving was
    switched on it is off at the end, whatever the service answered; and
    the final line sequence differs from the old one in one case only:
    grouping succeeded and the service accepted every payload, and then it
    is the old sequence followed by a fresh header and detail line. *)
Theorem valider_effect (s : State) (sel : Selection) (c : Clock)
        (create : Ecriture.t -> reply) :
  let h := validerEcriture s sel c create in
  Forall (fun r => currentRow r = currentRow s /\ currentCol r = currentCol s)
         (rendus s h)
  /\ Forall (fun r => lignes r = lignes s /\ saving r = true)
            (removelast (rendus s h))
  /\ last (rendus s h) s = settle s h
  /\ (In (SetSaving true) (fst h) -> saving (settle s h) = false)
  /\ (lignes (settle s h) = lignes s
      \/ exists es, grouper sel (lignes s) = ret es
                    /\ Forall (fun e => create e = Created) es
                    /\ lignes (settle s h) = lignes s ++ newEcriture c).
Proof.
  cbv zeta. unfold validerEcriture.
  destruct (negb (JS.truthy (selectedJournal sel))
            || negb (JS.truthy (selectedPeriode sel))).
  { cbn. repeat split; auto. intros [H | []]; discriminate. }
  destruct (JS.ge _ _).
  { cbn. repeat split; auto. intros [H | []]; discriminate. }
  destruct (grouper_cases sel (lignes s)) as [-> | (es & Hes)].
  { cbn. repeat split; auto. intros []. }
  rewrite Hes, bind_ret_l.
  assert (Hrep : forall n (P : State -> Prop) x, P x -> Forall P (repeat x n)).
  { intros n P x Hx. induction n; cbn; auto. }
  assert (Hlast : forall n (x y d : State), last (repeat x n ++ [y]) d = y).
  { intros n x y d. induction n as [| n IH]; [reflexivity|].
    cbn [repeat app]. rewrite <- IH at 2. cbn [last].
    destruct (repeat x n ++ [y]) eqn:E; [|reflexivity].
    destruct (repeat x n); discriminate. }
  assert (Hrem : forall n (x y : State), removelast (repeat x n ++ [y]) = repeat x n).
  { intros n x y. apply removelast_last. }
  destruct (envoyer_cases create es)
    as [[Hall ->] | (pre & e & post & t & -> & Hpre & He & ->)];
    unfold rendus, settle;
    cbn [bind emit addNewEcriture fst app fold_left rendus_depuis apply_update
         lignes currentRow currentCol saving];
    rewrite rendus_creates, fold_left_app, fold_creates;
    cbn [fold_left rendus_depuis apply_update lignes currentRow currentCol saving];
    rewrite Hrem, Hlast.
  - split; [apply Forall_app; split; [apply Hrep | constructor]; auto|].
    split; [apply Hrep; auto|]. split; [reflexivity|]. split; [auto|].
    right. exists es. auto.
  - split; [apply Forall_app; split; [apply Hrep | constructor]; auto|].
    split; [apply Hrep; auto|]. split; [reflexivity|]. split; auto.
Qed.

(** *** The indicator, the button and the guard *)

Lemma totals_are_sums_nan (ls : list LigneEcriture) (l : LigneEcriture) :
  In l ls -> is_header l = false ->
  is_nan (montant (debit l)) = true \/ is_nan (montant (credit l)) = true ->
  totalDebit ls = nan \/ totalCredit ls = nan.
Proof.
  intros Hin Hh [Hn | Hn]; [left | right].
  - unfold totalDebit, totals. rewrite totals_step_fold. cbn [fst].
    now apply (totals_nan debit ls l).
  - unfold totalCredit, totals. rewrite totals_step_fold. cbn [snd].
    now apply (totals_nan credit ls l).
Qed.

Lemma SFcompare_antisym (a b : spec_float) :
  SFcompare b a = option_map CompOpp (SFcompare a b).
Proof.
  destruct a as [s1 | s1 | | s1 m1 e1], b as [s2 | s2 | | s2 m2 e2];
    cbn; try reflexivity;
    try (destruct s1; reflexivity); try (destruct s2; reflexivity);
    try (destruct s1, s2; reflexivity).
  destruct s1, s2; cbn; try reflexivity;
    rewrite (Z.compare_antisym e1 e2); destruct (e1 ?= e2)%Z; cbn; try reflexivity;
    change (Pos.compare_cont Eq m2 m1) with (Pos.compare_cont (CompOpp Eq) m2 m1);
    rewrite <- (Pos.compare_cont_antisym m1 m2 Eq);
    destruct (Pos.compare_cont Eq m1 m2); reflexivity.
Qed.

Lemma SFleb_negb_ltb (a b : spec_float) :
  a <> S754_nan -> b <> S754_nan -> SFleb b a = negb (SFltb a b).
Proof.
  intros Ha Hb. unfold SFleb, SFltb. rewrite (SFcompare_antisym a b).
  destruct (SFcompare a b) as [[] |] eqn:E; try reflexivity.
  destruct a, b; try congruence; cbn in E; discriminate.
Qed.

Lemma ge_negb_lt (x y : float) :
  is_nan x = false -> is_nan y = false -> JS.ge x y = negb (JS.lt x y).
Proof.
  intros Hx Hy. unfold JS.ge, JS.lt. rewrite leb_spec, ltb_spec.
  apply SFleb_negb_ltb; unfold Prim2SF.
  - rewrite Hx. destruct (is_zero x); [discriminate|].
    destruct (is_infinity x); [discriminate|].
    destruct (Z.frexp x). destruct (shr_fexp _ _ _ _ _). now destruct (shr_m s).
  - rewrite Hy. destruct (is_zero y); [discriminate|].
    destruct (is_infinity y); [discriminate|].
    destruct (Z.frexp y). destruct (shr_fexp _ _ _ _ _). now destruct (shr_m s).
Qed.

Lemma is_nan_abs (x : float) : is_nan (abs x) = is_nan x.
Proof.
  destruct (is_nan x) eqn:E.
  - rewrite (is_nan_eq _ E). reflexivity.
  - destruct (is_nan (abs x)) eqn:E'; [|reflexivity].
    apply is_nan_eq in E'. apply (f_equal Prim2SF) in E'. rewrite abs_spec in E'.
    change (Prim2SF nan) with S754_nan in E'.
    assert (Prim2SF x = S754_nan) by (destruct (Prim2SF x); discriminate || reflexivity).
    assert (x = nan) by (apply Prim2SF_inj; assumption). subst x. discriminate.
Qed.

Lemma ge_abs_nan (y : float) : JS.ge (JS.Math_abs nan) y = false.
Proof.
  unfold JS.ge, JS.Math_abs. rewrite leb_spec, abs_spec.
  change (Prim2SF nan) with S754_nan. now destruct (Prim2SF y).
Qed.

(** X7: the balance guard lets NaN through.  When a detail line carries an
    amount text that does not parse, the indicator shows the grid as not
    balanced, yet the "Valider" button is disabled only while saving, and
    once journal and period are selected the handler does not start with
    the imbalance alert: it goes on to grouping. *)
Theorem nan_passes_balance_guard (s : State) (sel : Selection) (c : Clock)
        (create : Ecriture.t -> reply) (l : LigneEcriture) :
  In l (lignes s) ->
  is_header l = false ->
  is_nan (montant (debit l)) = true \/ is_nan (montant (credit l)) = true ->
  equilibre (lignes s) = false
  /\ valider_disabled s = saving s
  /\ (JS.truthy (selectedJournal sel) = true ->
      JS.truthy (selectedPeriode sel) = true ->
      hd_error (fst (validerEcriture s sel c create)) <> Some (Alert MsgDesequilibre)).
Proof.
  intros Hin Hh Hn.
  assert (Hgap : (totalDebit (lignes s) - totalCredit (lignes s))%float = nan).
  { destruct (totals_are_sums_nan (lignes s) l Hin Hh Hn) as [-> | ->].
    - apply sub_nan_l.
    - apply sub_nan_r. }
  split; [|split].
  - unfold equilibre. rewrite Hgap. apply abs_nan_lt.
  - unfold valider_disabled. rewrite Hgap, ge_abs_nan. apply orb_false_r.
  - intros HJ HP. unfold validerEcriture. rewrite HJ, HP, Hgap, ge_abs_nan.
    cbn [negb orb].
    destruct (grouper_cases sel (lignes s)) as [-> | (es & ->)];
      [cbn; discriminate|].
    rewrite bind_ret_l.
    destruct (envoyer_cases create es)
      as [[_ ->] | (pre & e & post & t & _ & _ & _ & ->)]; cbn; discriminate.
Qed.

Lemma nan_passes_balance_guard_witness :
  let s := mkState [Exemple.entete; Exemple.achat "abc"] 1 5 false in
  In (Exemple.achat "abc") (lignes s)
  /\ is_header (Exemple.achat "abc") = false
  /\ is_nan (montant (debit (Exemple.achat "abc"))) = true
  /\ equilibre (lignes s) = false
  /\ valider_disabled s = false.
Proof.
  cbv zeta. split; [right; left; reflexivity|]. split; [reflexivity|].
  split; [vm_compute; reflexivity|].
  pose proof (nan_passes_balance_guard
                (mkState [Exemple.entete; Exemple.achat "abc"] 1 5 false)
                Exemple.selection Exemple.horloge (fun _ => Created)
                (Exemple.achat "abc") (or_intror (or_introl eq_refl)) eq_refl
                (or_introl eq_refl)) as (H1 & H2 & _).
  split; [exact H1 | exact H2].
Defined.

(** X8: the indicator and the button agree whenever the gap is a number.
    If [totalDebit - totalCredit] is not NaN, the "Valider" button is
    disabled exactly when a save is in progress or the indicator does not
    show "Équilibré"; in particular a grid shown as balanced is never
    turned down by the balance guard. *)
Theorem button_follows_indicator (s : State) :
  is_nan (totalDebit (lignes s) - totalCredit (lignes s)) = false ->
  valider_disabled s = saving s || negb (equilibre (lignes s)).
Proof.
  intros Hgap. unfold valider_disabled, equilibre. f_equal.
  apply ge_negb_lt; [|reflexivity].
  unfold JS.Math_abs. now rewrite is_nan_abs.
Qed.

Lemma button_follows_indicator_witness :
  let s := mkState [Exemple.entete; Exemple.achat "150.00"; Exemple.fournisseur "100.00"]
                   2 6 false in
  is_nan (totalDebit (lignes s) - totalCredit (lignes s)) = false
  /\ valider_disabled s = saving s || negb (equilibre (lignes s)).
Proof.
  cbv zeta. split; [vm_compute; reflexivity|].
  apply (button_follows_indicator
           (mkState [Exemple.entete; Exemple.achat "150.00";
                     Exemple.fournisseur "100.00"] 2 6 false)).
  vm_compute. reflexivity.
Defined.

(** *** More on auto-balance *)

Lemma non_vide_false_step (l : LigneEcriture) :
  non_vide l = false -> totals_step (0%float, 0%float) l = (0%float, 0%float).
Proof.
  unfold non_vide, totals_step. destruct (is_header l); [reflexivity|].
  cbn [negb andb]. intros H.
  apply orb_false_elim in H as [H Hc]. apply orb_false_elim in H as [_ Hd].
  destruct (debit l); [|discriminate]. destruct (credit l); [|discriminate].
  vm_compute. reflexivity.
Qed.

Lemma totals_all_vides (ls : list LigneEcriture) :
  Forall (fun l => non_vide l = false) ls -> totals ls = (0%float, 0%float).
Proof.
  unfold totals. induction 1 as [| l ls Hl _ IH]; [reflexivity|].
  cbn [fold_left]. now rewrite (non_vide_false_step l Hl).
Qed.

Lemma lastIndex_none_all_vides (ls : list LigneEcriture) :
  lastIndex ls = None -> Forall (fun l => non_vide l = false) ls.
Proof.
  intros H. apply Forall_forall. intros l Hin.
  destruct (In_nth_error _ _ Hin) as (j & Hj).
  apply (lastIndexBelow_none ls (List.length ls) H j l); [|exact Hj].
  apply nth_error_Some. congruence.
Qed.

(** X9: on a grid that is not balanced, auto-balance always finds a line
    to rewrite: the exit "no non-empty line" is only ever taken on a grid
    whose totals are both 0.  So F5 on an unbalanced grid queues exactly one
    new sequence, in which the last non-header line that has an account, a
    debit or a credit is rewritten. *)
Theorem unbalanced_grid_has_target (s : State) :
  equilibre (lignes s) = false ->
  exists i l,
    lastIndex (lignes s) = Some i
    /\ nth_error (lignes s) i = Some l
    /\ non_vide l = true
    /\ (forall j l', i < j -> nth_error (lignes s) j = Some l' -> non_vide l' = false)
    /\ exists f, equilibrerEcriture s = emit (SetLignes (update_at (lignes s) i f)).
Proof.
  intros Hne. destruct (lastIndex (lignes s)) as [i |] eqn:Hi.
  - destruct (lastIndexBelow_some (lignes s) (List.length (lignes s)) i (le_n _) Hi)
      as (Hlt & (l & Hl & Hv) & Hafter).
    exists i, l. repeat split; auto.
    + intros j l' Hij Hj. apply (Hafter j l' Hij); [|exact Hj].
      apply nth_error_Some. congruence.
    + unfold equilibrerEcriture. unfold equilibre in Hne. rewrite Hne, Hi.
      destruct (JS.gt _ _); eexists; reflexivity.
  - exfalso. apply lastIndex_none_all_vides, totals_all_vides in Hi.
    unfold equilibre, totalDebit, totalCredit in Hne. rewrite Hi in Hne.
    vm_compute in Hne. discriminate.
Qed.

Lemma unbalanced_grid_has_target_witness :
  let s := mkState [Exemple.entete; Exemple.achat "150.00"; Exemple.fournisseur "100.00"]
                   2 6 false in
  equilibre (lignes s) = false
  /\ exists i l, lastIndex (lignes s) = Some i /\ nth_error (lignes s) i = Some l
                 /\ non_vide l = true.
Proof.
  cbv zeta. split; [vm_compute; reflexivity|].
  destruct (unbalanced_grid_has_target
              (mkState [Exemple.entete; Exemple.achat "150.00";
                        Exemple.fournisseur "100.00"] 2 6 false))
    as (i & l & Hi & Hl & Hv & _).
  - vm_compute. reflexivity.
  - exists i, l. auto.
Defined.

(** X10: what auto-balance leaves alone.  Whatever the grid, F5 keeps the
    number of lines, every header flag, every line other than the one it
    targets, and on the targeted line everything but debit and credit, of
    which one is empty afterwards. *)
Theorem equilibrer_frame (s : State) :
  let s' := settle s (equilibrerEcriture s) in
  List.length (lignes s') = List.length (lignes s)
  /\ map is_header (lignes s') = map is_header (lignes s)
  /\ (forall j, lastIndex (lignes s) <> Some j ->
                nth_error (lignes s') j = nth_error (lignes s) j)
  /\ (forall i l l', nth_error (lignes s) i = Some l ->
                     nth_error (lignes s') i = Some l' ->
                     l' = l
                     \/ (l' = set_credit (credit l') (set_debit (debit l') l)
                         /\ (debit l' = "" \/ credit l' = ""))).
Proof.
  cbv zeta. unfold equilibrerEcriture.
  destruct (JS.lt _ _);
    [repeat split; auto; intros i l l' H1 H2; left; cbn in H2; congruence|].
  destruct (lastIndex (lignes s)) as [t |];
    [|repeat split; auto; intros i l l' H1 H2; left; cbn in H2; congruence].
  assert (Hmap : forall f, (forall l, is_header (f l) = is_header l) ->
                           map is_header (update_at (lignes s) t f)
                           = map is_header (lignes s)).
  { intros f Hf. generalize t. induction (lignes s) as [| x r IH]; intros [| n];
      cbn; try reflexivity; [now rewrite Hf | now rewrite IH]. }
  destruct (JS.gt _ _); cbv zeta; rewrite settle_emit_lignes;
    (split; [apply length_update_at|]);
    (split; [apply Hmap; reflexivity|]);
    (split; [intros j Hj; rewrite nth_error_update_at;
             destruct (Nat.eqb_spec t j); congruence|]);
    intros i l l' Hl Hl'; rewrite nth_error_update_at, Hl in Hl';
    destruct (t =? i)%nat; cbn in Hl'; injection Hl' as <-;
    auto; right; split; auto; now destruct l.
Qed.

(** *** More on submission grouping *)

(** X11: blank lines do not change what would be submitted.  Grouping the
    sequence obtained by starting a new transaction (F2), or by appending a
    line to the current one, gives the same outcome, payloads or TypeError,
    as grouping the sequence before. *)
Theorem blank_lines_do_not_group (sel : Selection) (s : State) (c : Clock) :
  grouper sel (lignes (settle s (addNewEcriture s c))) = grouper sel (lignes s)
  /\ grouper sel (lignes (settle s (addLigneToCurrentEcriture s c)))
     = grouper sel (lignes s).
Proof.
  split.
  - unfold addNewEcriture. rewrite settle_emit_lignes. unfold newEcriture.
    rewrite (grouper_skip sel (lignes s) _ [_]) by reflexivity.
    rewrite (grouper_skip sel (lignes s) _ []) by reflexivity.
    now rewrite app_nil_r.
  - unfold addLigneToCurrentEcriture.
    destruct (nth_error (lignes s) (currentRow s)) as [cur |]; [|reflexivity].
    rewrite settle_emit_lignes. unfold splice_insert.
    rewrite (grouper_skip sel _ _ _) by reflexivity.
    now rewrite firstn_skipn.
Qed.

Lemma split_first {A} (P : A -> bool) (a : list A) :
  Forall (fun x => P x = false) a
  \/ exists pre x rest,
       a = pre ++ x :: rest /\ Forall (fun y => P y = false) pre /\ P x = true.
Proof.
  induction a as [| y a IH]; [left; constructor|].
  destruct (P y) eqn:Hy.
  - right. exists [], y, a. repeat split; auto.
  - destruct IH as [Hall | (pre & x & rest & -> & Hpre & Hx)].
    + left. now constructor.
    + right. exists (y :: pre), x, rest. repeat split; auto.
Qed.

Lemma filter_none {A} (P : A -> bool) (a : list A) :
  Forall (fun x => P x = false) a -> filter P a = [].
Proof.
  induction 1 as [| x a Hx _ IH]; cbn; [reflexivity | now rewrite Hx].
Qed.

(** The three shapes of a sequence, by its headers with an account code,
    and what grouping makes of each. *)
Lemma grouper_trichotomy (sel : Selection) (ls : list LigneEcriture) :
  (List.length (filter porte_compte ls) = 0 /\ grouper sel ls = ret [])
  \/ (exists pre h ds,
         List.length (filter porte_compte ls) = 1
         /\ ls = pre ++ h :: ds /\ porte_compte h = true
         /\ grouper sel ls
            = ret (if (2 <=? List.length (flat_map entry_of ds))%nat
                   then [with_data (nouvelle_ecriture sel h) (flat_map entry_of ds)]
                   else []))
  \/ (2 <= List.length (filter porte_compte ls) /\ grouper sel ls = throw TypeError).
Proof.
  destruct (split_first porte_compte ls) as [Hnone | (pre & h & rest & -> & Hpre & Hh)].
  - left. rewrite (filter_none _ _ Hnone). split; [reflexivity|].
    unfold grouper. now rewrite (forEach_idle sel _ _ Hnone), bind_ret_l.
  - right.
    destruct (split_first porte_compte rest)
      as [Hrest | (l2 & h2 & l3 & -> & Hl2 & Hh2)].
    + left. exists pre, h, rest. split; [|split; [reflexivity|split; [exact Hh|]]].
      * rewrite filter_app, (filter_none _ _ Hpre). cbn. rewrite Hh.
        now rewrite (filter_none _ _ Hrest).
      * now apply grouper_single.
    + right. split; [|now apply grouper_second_header_throws].
      rewrite filter_app, (filter_none _ _ Hpre). cbn. rewrite Hh.
      rewrite filter_app, (filter_none _ _ Hl2). cbn. rewrite Hh2. cbn. lia.
Qed.

(** X12: grouping fails exactly on sessions with more than one
    transaction.  It throws a TypeError if and only if at least two header
    lines of the sequence carry an account code; otherwise it returns a
    list of at most one payload. *)
Theorem grouper_throws_iff (sel : Selection) (ls : list LigneEcriture) :
  (grouper sel ls = throw TypeError
   <-> 2 <= List.length (filter porte_compte ls))
  /\ (List.length (filter porte_compte ls) <= 1 ->
      exists es, grouper sel ls = ret es /\ List.length es <= 1).
Proof.
  destruct (grouper_trichotomy sel ls)
    as [[Hn Hg] | [(pre & h & ds & Hn & _ & _ & Hg) | [Hn Hg]]]; rewrite Hg.
  - split; [split; [discriminate | lia]|]. intros _. exists []. split; [reflexivity | cbn; lia].
  - split; [split; [discriminate | lia]|]. intros _. eexists. split; [reflexivity|].
    destruct (2 <=? _)%nat; cbn; lia.
  - split; [split; auto | lia].
Qed.

Lemma entry_of_compte (l : LigneEcriture) :
  Forall (fun d => LigneData.compte d <> 0%Z) (entry_of l).
Proof.
  unfold entry_of. destruct (compteId l) as [cid |]; [|constructor].
  destruct (JS.truthy (compte l)); cbn [andb]; [|constructor].
  unfold JS.truthy_id. destruct (Z.eqb_spec cid 0); cbn [negb]; constructor; auto.
Qed.

(** X13: what a payload holds.  Whenever grouping returns normally, every
    payload has at least two detail entries, each under a non-zero account
    identifier, and carries the journal, period and fiscal year of the
    selection. *)
Theorem payloads_are_well_formed (sel : Selection) (ls : list LigneEcriture)
        (es : list Ecriture.t) :
  grouper sel ls = ret es ->
  Forall (fun e =>
            2 <= List.length (Ecriture.lignes_data e)
            /\ Forall (fun d => LigneData.compte d <> 0%Z) (Ecriture.lignes_data e)
            /\ Ecriture.journal e = JS.parseInt (selectedJournal sel)
            /\ Ecriture.periode e = JS.parseInt (selectedPeriode sel)
            /\ Ecriture.exercice e = exerciceId sel) es.
Proof.
  destruct (grouper_trichotomy sel ls)
    as [[_ ->] | [(pre & h & ds & _ & _ & _ & ->) | [_ ->]]]; intros E.
  - injection E as <-. constructor.
  - destruct (2 <=? List.length (flat_map entry_of ds))%nat eqn:Hle;
      injection E as <-; constructor; [|constructor].
    apply Nat.leb_le in Hle. cbn. repeat split; auto.
    apply Forall_flat_map. apply Forall_forall. intros l _. apply entry_of_compte.
  - discriminate.
Qed.

Lemma payloads_are_well_formed_witness :
  grouper Exemple.selection
          [Exemple.entete; Exemple.achat "100.00"; Exemple.fournisseur "100.00"]
  = ret [Exemple.payload]
  /\ Forall (fun d => LigneData.compte d <> 0%Z) (Ecriture.lignes_data Exemple.payload).
Proof.
  assert (E : grouper Exemple.selection
                [Exemple.entete; Exemple.achat "100.00"; Exemple.fournisseur "100.00"]
              = ret [Exemple.payload]) by (vm_compute; reflexivity).
  split; [exact E|].
  pose proof (payloads_are_well_formed _ _ _ E) as H.
  apply Forall_inv in H. apply H.
Defined.

(** *** The appended line and its transaction *)

Lemma scanToHeader_spec (rest : list LigneEcriture) (i : nat) :
  i <= scanToHeader rest i <= i + List.length rest
  /\ forall k, i <= k -> k < scanToHeader rest i ->
               exists l, nth_error rest (k - i) = Some l /\ is_header l = false.
Proof.
  revert i. induction rest as [| x rest IH]; intros i; cbn [scanToHeader List.length].
  - split; [lia|]. intros; lia.
  - destruct (is_header x) eqn:Hx.
    + split; [lia|]. intros; lia.
    + destruct (IH (S i)) as [Hb Hk]. split; [lia|].
      intros k Hik Hlt. destruct (Nat.eq_dec k i) as [-> | Hne].
      * rewrite Nat.sub_diag. exists x. now split.
      * destruct (Hk k ltac:(lia) Hlt) as (l & Hl & Hh). exists l. split; [|exact Hh].
        replace (k - i) with (S (k - S i)) by lia. exact Hl.
Qed.

Lemma insertIndex_spec (ls : list LigneEcriture) (row : nat) :
  row < List.length ls ->
  row + 1 <= insertIndex ls row <= List.length ls
  /\ forall k, row + 1 <= k -> k < insertIndex ls row ->
               exists l, nth_error ls k = Some l /\ is_header l = false.
Proof.
  intros Hrow. unfold insertIndex.
  destruct (scanToHeader_spec (skipn (row + 1) ls) (row + 1)) as [Hb Hk].
  rewrite length_skipn in Hb. split; [lia|].
  intros k Hrk Hlt. destruct (Hk k Hrk Hlt) as (l & Hl & Hh).
  exists l. split; [|exact Hh]. rewrite nth_error_skipn in Hl.
  now replace (row + 1 + (k - (row + 1))) with k in Hl by lia.
Qed.

Lemma enteteAvant_ext (a b : list LigneEcriture) (n : nat) :
  (forall k, k < n -> nth_error a k = nth_error b k) ->
  enteteAvant a n = enteteAvant b n.
Proof.
  induction n as [| n IH]; intros H; [reflexivity|].
  cbn [enteteAvant]. rewrite <- (H n) by lia. rewrite IH by (intros; apply H; lia).
  reflexivity.
Qed.

Lemma enteteAvant_skip (ls : list LigneEcriture) (a b : nat) :
  a <= b ->
  (forall k, a <= k -> k < b ->
             exists l, nth_error ls k = Some l /\ is_header l = false) ->
  enteteAvant ls b = enteteAvant ls a.
Proof.
  induction 1 as [| b Hab IH]; intros H; [reflexivity|].
  cbn [enteteAvant]. destruct (H b ltac:(lia) ltac:(lia)) as (l & -> & ->).
  apply IH. intros; apply H; lia.
Qed.

Lemma nth_error_splice_insert {A} (a : list A) (i : nat) (x : A) (k : nat) :
  i <= List.length a ->
  nth_error (splice_insert a i x) k
  = if (k <? i)%nat then nth_error a k
    else if (k =? i)%nat then Some x else nth_error a (k - 1).
Proof.
  intros Hi. unfold splice_insert.
  assert (Hlen : List.length (firstn i a) = i) by (apply firstn_length_le; lia).
  destruct (Nat.ltb_spec k i).
  - rewrite nth_error_app1 by lia. rewrite nth_error_firstn.
    apply Nat.ltb_lt in H. now rewrite H.
  - rewrite nth_error_app2 by lia. rewrite Hlen.
    destruct (Nat.eqb_spec k i) as [-> | Hne].
    + now rewrite Nat.sub_diag.
    + replace (k - i) with (S (k - 1 - i)) by lia. cbn [nth_error].
      rewrite nth_error_skipn. f_equal. lia.
Qed.

(** X14: the appended line joins the focused line's transaction.  When a
    line is focused, the new line is inserted after it without disturbing
    the order of the other lines, and the nearest header above the new line
    is the nearest header at or above the focused line. *)
Theorem appended_line_same_transaction (s : State) (c : Clock) (cur : LigneEcriture) :
  nth_error (lignes s) (currentRow s) = Some cur ->
  let ls' := lignes (settle s (addLigneToCurrentEcriture s c)) in
  let i := insertIndex (lignes s) (currentRow s) in
  currentRow s < i
  /\ nth_error ls' i = Some (newLigne (now0 c) (libelle cur))
  /\ firstn i ls' = firstn i (lignes s)
  /\ skipn (S i) ls' = skipn i (lignes s)
  /\ enteteAvant ls' (S i) = enteteAvant (lignes s) (S (currentRow s)).
Proof.
  intros Hcur. cbv zeta.
  assert (Hrow : currentRow s < List.length (lignes s))
    by (apply nth_error_Some; congruence).
  destruct (insertIndex_spec (lignes s) (currentRow s) Hrow) as [Hb Hk].
  unfold addLigneToCurrentEcriture. rewrite Hcur, settle_emit_lignes.
  set (i := insertIndex (lignes s) (currentRow s)) in *.
  set (x := newLigne (now0 c) (libelle cur)).
  assert (Hlen : List.length (firstn i (lignes s)) = i)
    by (apply firstn_length_le; lia).
  split; [lia|]. split; [|split; [|split]].
  - rewrite nth_error_splice_insert by lia.
    rewrite Nat.ltb_irrefl, Nat.eqb_refl. reflexivity.
  - unfold splice_insert. rewrite <- Hlen at 1. apply firstn_before.
  - unfold splice_insert.
    replace (S i) with (List.length (firstn i (lignes s) ++ [x]))
      by (rewrite length_app, Hlen; cbn; lia).
    change (firstn i (lignes s) ++ x :: skipn i (lignes s))
      with (firstn i (lignes s) ++ [x] ++ skipn i (lignes s)).
    rewrite app_assoc. apply skipn_before.
  - remember (enteteAvant (lignes s) (S (currentRow s))) as owner eqn:Ho.
    cbn [enteteAvant]. rewrite nth_error_splice_insert by lia.
    rewrite Nat.ltb_irrefl, Nat.eqb_refl. cbn [x newLigne is_header isHeader].
    rewrite (enteteAvant_ext _ (lignes s)).
    + subst owner. apply enteteAvant_skip; [lia|]. intros k H1 H2. apply Hk; lia.
    + intros k Hki. rewrite nth_error_splice_insert by lia.
      apply Nat.ltb_lt in Hki. now rewrite Hki.
Qed.

Lemma appended_line_same_transaction_witness :
  let s := mkState (Exemple.entete :: Exemple.details_libelles ++ Exemple.suite_libelles)
                   1 2 false in
  let ls' := lignes (settle s (addLigneToCurrentEcriture s Exemple.horloge)) in
  nth_error (lignes s) (currentRow s) = Some (Exemple.achat "150.00")
  /\ insertIndex (lignes s) (currentRow s) = 4
  /\ enteteAvant ls' 5 = enteteAvant (lignes s) 2.
Proof.
  cbv zeta. split; [reflexivity|]. split; [reflexivity|].
  exact (proj2 (proj2 (proj2 (proj2
           (appended_line_same_transaction
              (mkState (Exemple.entete :: Exemple.details_libelles
                          ++ Exemple.suite_libelles) 1 2 false)
              Exemple.horloge (Exemple.achat "150.00") eq_refl))))).
Defined.

(** *** More on account lookup *)



(** *** Cell edits *)

Lemma update_at_split {A} (a : list A) (row : nat) (f : A -> A) (cur : A) :
  nth_error a row = Some cur ->
  update_at a row f = firstn row a ++ f cur :: skipn (row + 1) a.
Proof.
  revert row. induction a as [| x r IH]; intros [| row] H; try discriminate.
  - cbn in H |- *. now injection H as ->.
  - cbn in H |- *. now rewrite (IH row H).
Qed.

(** X16: edits are local, header descriptions apart.  An edit of any cell
    other than the description of a header line queues one sequence in
    which only the edited line differs, by the edited property. *)
Theorem updateCell_local (s : State) (row : nat) (f : field) (value : string)
        (cur : LigneEcriture) :
  nth_error (lignes s) row = Some cur ->
  f <> F_libelle \/ is_header cur = false ->
  updateCell s row f value
  = emit (SetLignes (update_at (lignes s) row (set_field f value)))
  /\ (forall j, j <> row ->
                nth_error (lignes (settle s (updateCell s row f value))) j
                = nth_error (lignes s) j)
  /\ nth_error (lignes (settle s (updateCell s row f value))) row
     = Some (set_field f value cur).
Proof.
  intros Hcur Hloc.
  assert (E : updateCell s row f value
              = emit (SetLignes (update_at (lignes s) row (set_field f value)))).
  { unfold updateCell, updateCell_lignes. rewrite Hcur.
    rewrite (update_at_split _ _ _ _ Hcur).
    replace (field_eqb f F_libelle && is_header cur) with false; [reflexivity|].
    destruct Hloc as [Hf | ->]; [|now rewrite andb_false_r].
    destruct f; try reflexivity. now elim Hf. }
  split; [exact E|]. rewrite E, settle_emit_lignes. split.
  - intros j Hj. rewrite nth_error_update_at.
    destruct (Nat.eqb_spec row j); congruence.
  - now rewrite nth_error_update_at, Nat.eqb_refl, Hcur.
Qed.

Lemma updateCell_local_witness :
  let s := mkState [Exemple.entete; Exemple.achat ""] 1 5 false in
  nth_error (lignes s) 1 = Some (Exemple.achat "")
  /\ lignes (settle s (updateCell s 1 F_debit "12.50"))
     = [Exemple.entete; Exemple.achat "12.50"].
Proof.
  cbv zeta. split; [reflexivity|].
  exact (f_equal (fun h => lignes (settle _ h))
           (proj1 (updateCell_local
                     (mkState [Exemple.entete; Exemple.achat ""] 1 5 false)
                     1 F_debit "12.50" (Exemple.achat "") eq_refl
                     (or_intror eq_refl)))).
Defined.

Lemma updateCell_header_libelle (ls pre : list LigneEcriture) (h : LigneEcriture)
      (ds rest : list LigneEcriture) (V : string) (row col : nat) (sv : bool) :
  ls = pre ++ h :: ds ++ rest ->
  is_header h = true ->
  Forall (fun l => is_header l = false) ds ->
  fin_ou_entete rest ->
  settle (mkState ls row col sv) (updateCell (mkState ls row col sv)
                                    (List.length pre) F_libelle V)
  = mkState (pre ++ set_libelle V h
                 :: map (fun d => if suit_entete (libelle h) d
                                  then set_libelle V d else d) ds
                 ++ rest) row col sv.
Proof.
  intros -> Hh Hds Hrest. unfold updateCell, updateCell_lignes. cbn [lignes].
  rewrite nth_error_middle, firstn_before, skipn_past, Hh.
  cbn [field_eqb andb set_field]. now rewrite (propagate_run _ _ _ _ Hds Hrest).
Qed.

(** X17: two edits of a header's description in a row.  Editing the
    description of the header [h] to [V] and then to [W] gives [W] to the
    header and to the detail lines of the transaction whose description was
    empty, equal to the header's original one, or equal to [V]: a line
    whose own description coincides with the intermediate value is taken
    over by the second edit.  The other lines are unchanged. *)
Theorem updateCell_twice (s : State) (pre : list LigneEcriture) (h : LigneEcriture)
        (ds rest : list LigneEcriture) (V W : string) :
  lignes s = pre ++ h :: ds ++ rest ->
  is_header h = true ->
  Forall (fun l => is_header l = false) ds ->
  fin_ou_entete rest ->
  let s1 := settle s (updateCell s (List.length pre) F_libelle V) in
  lignes (settle s1 (updateCell s1 (List.length pre) F_libelle W))
  = pre ++ set_libelle W h
        :: map (fun d => if suit_entete (libelle h) d || (libelle d =? V)%string
                         then set_libelle W d else d) ds
        ++ rest.
Proof.
  intros Hl Hh Hds Hrest. cbv zeta. destruct s as [ls row col sv]. cbn [lignes] in Hl.
  rewrite (updateCell_header_libelle ls pre h ds rest V row col sv Hl Hh Hds Hrest).
  rewrite (updateCell_header_libelle _ pre (set_libelle V h) _ rest W row col sv
             eq_refl Hh).
  - cbn [lignes]. f_equal. f_equal. f_equal. rewrite map_map.
    apply map_ext. intros d. cbn [libelle set_libelle].
    destruct (suit_entete (libelle h) d) eqn:Hs.
    + unfold suit_entete. cbn [libelle set_libelle orb].
      rewrite String.eqb_refl, orb_true_r. reflexivity.
    + unfold suit_entete in Hs |- *. apply orb_false_elim in Hs as [-> _].
      cbn [orb]. destruct (libelle d =? V)%string; reflexivity.
  - apply Forall_forall. intros d' Hin. apply in_map_iff in Hin as (d & <- & Hd).
    rewrite Forall_forall in Hds. specialize (Hds d Hd).
    destruct (suit_entete (libelle h) d); [exact Hds | exact Hds].
  - exact Hrest.
Qed.

Lemma updateCell_twice_witness :
  let s := Exemple.etat_libelles in
  let s1 := settle s (updateCell s 0 F_libelle "Transport") in
  lignes s = [] ++ Exemple.entete :: Exemple.details_libelles ++ Exemple.suite_libelles
  /\ is_header Exemple.entete = true
  /\ Forall (fun l => is_header l = false) Exemple.details_libelles
  /\ fin_ou_entete Exemple.suite_libelles
  /\ map libelle (lignes (settle s1 (updateCell s1 0 F_libelle "Fret")))
     = ["Fret"; "Fret"; "Fret"; "Fret"; "Autre"; "Achat fournitures"].
Proof.
  cbv zeta.
  assert (Hds : Forall (fun l => is_header l = false) Exemple.details_libelles)
    by (repeat constructor).
  split; [reflexivity|]. split; [reflexivity|]. split; [exact Hds|].
  split; [reflexivity|].
  exact (f_equal (map libelle)
           (updateCell_twice Exemple.etat_libelles [] Exemple.entete
              Exemple.details_libelles Exemple.suite_libelles
              "Transport" "Fret" eq_refl eq_refl Hds eq_refl)).
Defined.

(** *** The header invariant under every event *)

Lemma is_header_set_field (f : field) (v : string) (l : LigneEcriture) :
  is_header (set_field f v l) = is_header l.
Proof. now destruct f. Qed.

Lemma map_is_header_update_at (ls : list LigneEcriture) (i : nat)
      (f : LigneEcriture -> LigneEcriture) :
  (forall l, is_header (f l) = is_header l) ->
  map is_header (update_at ls i f) = map is_header ls.
Proof.
  intros Hf. revert i. induction ls as [| x r IH]; intros [| n]; cbn;
    try reflexivity; [now rewrite Hf | now rewrite IH].
Qed.

Lemma map_is_header_propagate (old value : string) (rest : list LigneEcriture) :
  map is_header (propagate old value rest) = map is_header rest.
Proof.
  induction rest as [| l rest IH]; [reflexivity|].
  cbn [propagate]. destruct (is_header l) eqn:Hl; [reflexivity|].
  cbn [map]. rewrite IH. f_equal.
  destruct (negb (JS.truthy (libelle l)) || (libelle l =? old)%string);
    reflexivity.
Qed.

Lemma map_is_header_updateCell (ls : list LigneEcriture) (row : nat) (f : field)
      (value : string) (cur : LigneEcriture) :
  nth_error ls row = Some cur ->
  map is_header (updateCell_lignes ls row f value cur) = map is_header ls.
Proof.
  intros Hcur. unfold updateCell_lignes.
  rewrite map_app. cbn [map]. rewrite is_header_set_field.
  assert (Htail : forall t, map is_header t = map is_header (skipn (row + 1) ls) ->
                            map is_header (firstn row ls) ++ is_header cur :: map is_header t
                            = map is_header ls).
  { intros t ->. rewrite <- (map_cons is_header), <- map_app. f_equal.
    rewrite <- (update_at_split ls row (fun l => l) cur Hcur).
    clear. revert row. induction ls as [| x r IH]; intros [| n]; cbn;
      try reflexivity. now rewrite IH. }
  apply Htail. destruct (field_eqb f F_libelle && is_header cur); [|reflexivity].
  apply map_is_header_propagate.
Qed.

Lemma premiere_of_map (a b : list LigneEcriture) :
  map is_header a = map is_header b ->
  premiere_est_entete b -> premiere_est_entete a.
Proof.
  intros E (h & rest & -> & Hh). destruct a as [| x a]; [discriminate|].
  cbn in E. injection E as Ex _. exists x, a. split; [reflexivity | congruence].
Qed.

Lemma valider_lignes (s : State) (sel : Selection) (c : Clock)
      (create : Ecriture.t -> reply) :
  lignes (settle s (validerEcriture s sel c create)) = lignes s
  \/ lignes (settle s (validerEcriture s sel c create)) = lignes s ++ newEcriture c.
Proof.
  unfold validerEcriture.
  destruct (negb (JS.truthy (selectedJournal sel))
            || negb (JS.truthy (selectedPeriode sel))); [now left|].
  destruct (JS.ge _ _); [now left|].
  destruct (grouper_cases sel (lignes s)) as [-> | (es & ->)]; [now left|].
  rewrite bind_ret_l.
  destruct (envoyer_cases create es)
    as [[_ ->] | (pre & e & post & t & _ & _ & _ & ->)];
    unfold settle; cbn [bind emit addNewEcriture fst app fold_left];
    rewrite fold_left_app, fold_creates; cbn; auto.
Qed.

Lemma settle_bind_focus (s : State) (h : handler unit) (r : nat) :
  lignes (settle s (h ;; emit (SetCurrentRow r) ;; emit (SetCurrentCol 0)))
  = lignes (settle s h).
Proof.
  destruct h as [us [[] | e]]; unfold settle; cbn; [|reflexivity].
  rewrite fold_left_app. reflexivity.
Qed.

Lemma dispatch_keeps_first_header (s : State) (e : event) :
  premiere_est_entete (lignes s) -> premiere_est_entete (lignes (dispatch s e)).
Proof.
  intros H.
  assert (Hnew : forall c, premiere_est_entete (lignes (settle s (addNewEcriture s c))))
    by (intros c; exact (step_keeps_first_header s (NouvelleEcriture c) H)).
  assert (Hadd : forall c, premiere_est_entete
                             (lignes (settle s (addLigneToCurrentEcriture s c))))
    by (intros c; exact (step_keeps_first_header s (AjouterLigne c) H)).
  assert (Heq : premiere_est_entete (lignes (settle s (equilibrerEcriture s)))).
  { unfold equilibrerEcriture. destruct (JS.lt _ _); [exact H|].
    destruct (lastIndex (lignes s)) as [i |]; [|exact H].
    rewrite settle_emit_lignes.
    destruct (JS.gt _ _);
      (eapply premiere_of_map; [apply map_is_header_update_at; reflexivity | exact H]). }
  destruct e as [c k shiftKey row col | row col | row f value | comptes row value
                 | c | | sel c create]; cbn [dispatch].
  - destruct k; unfold handleKeyDown; auto.
    + destruct shiftKey.
      * destruct (0 <? col)%nat; [exact H|]. destruct (0 <? row)%nat; exact H.
      * destruct (col <? totalCols - 1)%nat; [exact H|].
        destruct (has_next (lignes s) row); [exact H|].
        rewrite settle_bind_focus. apply Hadd.
    + destruct (has_next (lignes s) row); [exact H|].
      rewrite settle_bind_focus. apply Hadd.
    + destruct (0 <? row)%nat; exact H.
    + destruct (has_next (lignes s) row); exact H.
  - exact H.
  - unfold updateCell. destruct (nth_error (lignes s) row) as [cur |] eqn:E; [|exact H].
    rewrite settle_emit_lignes.
    eapply premiere_of_map; [apply (map_is_header_updateCell _ _ _ _ _ E) | exact H].
  - unfold handleCompteSearch, updateCell.
    destruct (nth_error (lignes s) row) as [cur |] eqn:E; [|exact H].
    destruct (find _ comptes) as [c |].
    + unfold settle. cbn.
      eapply premiere_of_map; [apply map_is_header_update_at; reflexivity | exact H].
    + unfold settle. cbn.
      eapply premiere_of_map; [apply (map_is_header_updateCell _ _ _ _ _ E) | exact H].
  - apply Hnew.
  - exact Heq.
  - destruct (valider_lignes s sel c create) as [-> | ->];
      [exact H | now apply premiere_app].
Qed.

Lemma dispatch_run_first_header (c : Clock) (es : list event) :
  premiere_est_entete (lignes (fold_left dispatch es (initial c))).
Proof.
  assert (G : forall s, premiere_est_entete (lignes s) ->
                        premiere_est_entete (lignes (fold_left dispatch es s))).
  { induction es as [| e es IH]; intros s H; [exact H|].
    cbn [fold_left]. apply IH. now apply dispatch_keeps_first_header. }
  apply G, initial_first_header.
Qed.

(** X18: the header invariant holds for the whole page.  From the initial
    session state, after any sequence of events (keys, focus changes, cell
    edits, account lookups, the three buttons, with any answers of the
    service), the first line is a header line and every non-header line
    has a nearest preceding header line. *)
Theorem header_invariant_all_events (c : Clock) (es : list event) :
  let ls := lignes (fold_left dispatch es (initial c)) in
  premiere_est_entete ls
  /\ forall i l, nth_error ls i = Some l -> is_header l = false ->
                 exists j, enteteAvant ls i = Some j /\ appartient ls i j.
Proof.
  cbv zeta. pose proof (dispatch_run_first_header c es) as H.
  split; [exact H | now apply first_header_owns].
Qed.

(** *** The date shown on detail rows *)

(** X19: the date looked up for a detail row is the date of the first line
    of the grid.  In every state the page can reach, the lookup made for
    the first cell of a non-header row returns the date of line 0, whatever
    transaction the row belongs to: rows of a later transaction are shown
    with the first transaction's date. *)
Theorem date_affichee_is_first_date (c : Clock) (es : list event) (i : nat)
        (l : LigneEcriture) :
  let ls := lignes (fold_left dispatch es (initial c)) in
  nth_error ls i = Some l ->
  is_header l = false ->
  exists h, nth_error ls 0 = Some h /\ date_affichee ls i = date h.
Proof.
  cbv zeta. intros Hl Hh.
  destruct (dispatch_run_first_header c es) as (h & rest & E & Hhh).
  rewrite E in Hl |- *. exists h. split; [reflexivity|].
  destruct i as [| i]; [cbn in Hl; congruence|].
  unfold date_affichee. cbn. now rewrite Hhh.
Qed.

Lemma date_affichee_is_first_date_witness :
  let es := [ClickNouvelle (mkClock "1717300000000" "1717300000001" "2024-06-15")] in
  let ls := lignes (fold_left dispatch es (initial Exemple.horloge)) in
  option_map is_header (nth_error ls 3) = Some false
  /\ option_map date (nth_error ls 2) = Some (Some "2024-06-15")
  /\ date_affichee ls 3 = Some "2024-06-01".
Proof.
  cbv zeta. split; [reflexivity|]. split; [reflexivity|].
  destruct (date_affichee_is_first_date Exemple.horloge
              [ClickNouvelle (mkClock "1717300000000" "1717300000001" "2024-06-15")]
              3 (mkLigne None "1717300000001_1" None "" None "" "" "" "" (Some "")
                         (Some true) None) eq_refl eq_refl) as (h & Hh & ->).
  cbn in Hh. now injection Hh as <-.
Defined.
